(** * View command handlers of the Brackets editor: font size and line scrolling

    A shallow embedding of [src/view/ViewCommandHandlers.js].  The module is
    glue between a command registry and an externally supplied editor widget,
    so the embedding has three layers:

    - [JS]: the fragment of JavaScript's number and string semantics the code
      uses.  Numbers are exact rationals extended with [Infinity],
      [-Infinity] and [NaN]; the rounding of IEEE doubles and the sign of
      zero are abstracted away.
    - [Host]: the interfaces the module consumes from the editor widget and
      the browser, as a type class.  Theorems are proved for every
      implementation; the implementation [Mock.host] records the calls it
      receives and is used for concrete runs.
    - the handlers themselves, written in a state monad over the page (the
      style elements of the document head and the focused editor). *)

From Stdlib Require Import ZArith QArith Qround Qreduction Lqa Lia.
From Stdlib Require Import String Ascii List Bool DecimalString.
Import ListNotations.

Set Implicit Arguments.

(* ================================================================= *)
(** ** JavaScript numbers and strings *)

Module JS.

(** A JavaScript number.  [Fin q] is a finite value; every operation below
    returns its finite results in lowest terms ([Qred]). *)
Inductive num : Type :=
| Fin (q : Q)
| PInf
| NInf
| NaN.

Definition of_Z (z : Z) : num := Fin (inject_Z z).

Definition zero : num := of_Z 0.
Definition one : num := of_Z 1.
Definition minus_one : num := of_Z (-1).
(** The literal [0.1]. *)
Definition tenth : num := Fin (1 # 10).

Definition Qlt_bool (a b : Q) : bool := negb (Qle_bool b a).

Definition js_neg (a : num) : num :=
  match a with
  | Fin x => Fin (Qred (- x))
  | PInf => NInf
  | NInf => PInf
  | NaN => NaN
  end.

(** [a + b] *)
Definition js_add (a b : num) : num :=
  match a, b with
  | NaN, _ | _, NaN => NaN
  | Fin x, Fin y => Fin (Qred (x + y))
  | PInf, NInf | NInf, PInf => NaN
  | PInf, _ | _, PInf => PInf
  | NInf, _ | _, NInf => NInf
  end.

(** [a - b] *)
Definition js_sub (a b : num) : num := js_add a (js_neg b).

(** Infinity with the sign of a product or quotient: [pos] says whether the
    two operand signs agree. *)
Definition inf_of (pos : bool) : num := if pos then PInf else NInf.

Definition nonneg (a : num) : bool :=
  match a with
  | Fin x => Qle_bool 0 x
  | PInf => true
  | NInf => false
  | NaN => false
  end.

Definition is_zero (a : num) : bool :=
  match a with
  | Fin x => Qeq_bool x 0
  | _ => false
  end.

(** [a * b] *)
Definition js_mul (a b : num) : num :=
  match a, b with
  | NaN, _ | _, NaN => NaN
  | Fin x, Fin y => Fin (Qred (x * y))
  | _, _ =>
      if is_zero a || is_zero b then NaN
      else inf_of (Bool.eqb (nonneg a) (nonneg b))
  end.

(** [a / b] *)
Definition js_div (a b : num) : num :=
  match a, b with
  | NaN, _ | _, NaN => NaN
  | Fin x, Fin y =>
      if Qeq_bool y 0
      then (if Qeq_bool x 0 then NaN else inf_of (Qle_bool 0 x))
      else Fin (Qred (x / y))
  | Fin _, _ => zero
  | _, Fin _ => inf_of (Bool.eqb (nonneg a) (nonneg b))
  | _, _ => NaN
  end.

(** [a < b]; every comparison with [NaN] is false. *)
Definition js_lt (a b : num) : bool :=
  match a, b with
  | NaN, _ | _, NaN => false
  | Fin x, Fin y => Qlt_bool x y
  | NInf, NInf | PInf, _ => false
  | NInf, _ => true
  | Fin _, PInf => true
  | Fin _, NInf => false
  end.

(** [a > b] *)
Definition js_gt (a b : num) : bool := js_lt b a.

(** [a === b] on numbers. *)
Definition js_seq (a b : num) : bool :=
  match a, b with
  | Fin x, Fin y => Qeq_bool x y
  | PInf, PInf | NInf, NInf => true
  | _, _ => false
  end.

(** [a <= b] *)
Definition js_le (a b : num) : bool := js_lt a b || js_seq a b.

(** [Math.ceil] *)
Definition Math_ceil (a : num) : num :=
  match a with
  | Fin x => of_Z (Qceiling x)
  | _ => a
  end.

(** [Math.floor] *)
Definition Math_floor (a : num) : num :=
  match a with
  | Fin x => of_Z (Qfloor x)
  | _ => a
  end.

(** [Math.round]: to the nearest integer, halves upwards. *)
Definition Math_round (a : num) : num :=
  match a with
  | Fin x => of_Z (Qfloor (x + (1 # 2)))
  | _ => a
  end.

(** *** Strings *)

Definition is_digit (c : ascii) : bool :=
  let n := nat_of_ascii c in (48 <=? n)%nat && (n <=? 57)%nat.

Definition is_dot (c : ascii) : bool := Ascii.eqb c "."%char.

Definition digit_val (c : ascii) : Z := Z.of_nat (nat_of_ascii c - 48).

(** [s.substring(from, to)] for [0 <= from <= to]; as in JavaScript the
    bounds are clamped to the string. *)
Definition substring (from to : nat) (s : string) : string :=
  String.substring from (to - from) s.

(** The longest prefix of decimal digits: its value, its number of digits
    and the rest of the string.  [acc] and [n] accumulate. *)
Fixpoint read_digits (s : string) (acc : Z) (n : nat) : Z * nat * string :=
  match s with
  | String c rest =>
      if is_digit c then read_digits rest (acc * 10 + digit_val c)%Z (S n)
      else (acc, n, s)
  | EmptyString => (acc, n, s)
  end.

(** [parseFloat] on unsigned decimal literals without exponent: digits, an
    optional dot and digits; the rest of the string is ignored and a string
    that starts with no digit gives [NaN].  These are the only strings the
    module passes to it (they consist of digits and dots). *)
Definition parseFloat (s : string) : num :=
  let '(ip, ni, rest) := read_digits s 0 0 in
  let '(fp, nf) :=
    match rest with
    | String c rest' =>
        if is_dot c
        then (let '(f, k, _) := read_digits rest' 0 0 in (f, k))
        else (0%Z, 0%nat)
    | EmptyString => (0%Z, 0%nat)
    end in
  match ni, nf with
  | O, O => NaN
  | _, _ => Fin (Qred (inject_Z ip + (fp # Pos.of_nat (10 ^ nf))))
  end.

Definition digit_char (d : Z) : ascii := ascii_of_nat (48 + Z.to_nat d).

(** The decimal digits of the fraction [r / d] (with [0 <= r < d]), at most
    [fuel] of them. *)
Fixpoint frac_digits (fuel : nat) (r d : Z) : string :=
  match fuel with
  | O => EmptyString
  | S fuel' =>
      if (r =? 0)%Z then EmptyString
      else String (digit_char (r * 10 / d)) (frac_digits fuel' (r * 10 mod d) d)
  end.

(** Number to string, as in [fsNew + fsUnits]: plain decimal notation, with
    at most twenty fractional digits (no exponent notation). *)
Definition toString (a : num) : string :=
  match a with
  | NaN => "NaN"
  | PInf => "Infinity"
  | NInf => "-Infinity"
  | Fin q =>
      let q' := Qred q in
      let n := Z.abs (Qnum q') in
      let d := Z.pos (Qden q') in
      let ip := NilZero.string_of_uint (N.to_uint (Z.to_N (n / d))) in
      let fp := frac_digits 20 (n mod d) d in
      ((if (Qnum q' <? 0)%Z then "-" else EmptyString)
         ++ ip ++ (if (n mod d =? 0)%Z then EmptyString else "." ++ fp))%string
  end.

End JS.

Import JS.

Declare Scope js_scope.
Delimit Scope js_scope with js.
Bind Scope js_scope with num.
Infix "+" := js_add : js_scope.
Infix "-" := js_sub : js_scope.
Infix "*" := js_mul : js_scope.
Infix "/" := js_div : js_scope.
Infix "<" := js_lt : js_scope.
Infix ">" := js_gt : js_scope.
Infix "<=" := js_le : js_scope.
Infix "===" := js_seq (at level 70, no associativity) : js_scope.

Open Scope string_scope.

(* ================================================================= *)
(** ** Data exchanged with the editor and the page *)

(** The result of [codeMirror.getScrollInfo()]. *)
Module ScrollInfo.
Record t : Type := make { top : num; left : num; clientHeight : num }.
End ScrollInfo.

(** A cursor position [{line, ch}]. *)
Module Pos.
Record t : Type := make { line : num; ch : num }.
End Pos.

(** The result of [editor.getScrollPos()]. *)
Module ScrollPos.
Record t : Type := make { x : num; y : num }.
End ScrollPos.

(** An inline editor embedded in the text; [height] is
    [inlineEditor.info.height].  The line it is anchored at is known to the
    host editor only ([_getInlineWidgetLineNumber]). *)
Module InlineWidget.
Record t : Type := make { id : nat; height : num }.
End InlineWidget.

(** The pair [{first, last}] returned by [_getLinesInView]. *)
Module LinesInView.
Record t : Type := make { first : num; last : num }.
End LinesInView.

(** An element of the document head, as far as the module builds one:
    [$("<style type='text/css'></style>").attr("id", ...).html(...)]. *)
Module Element.
Record t : Type := make { tag : string; type : string; id : string; html : string }.
End Element.

(** The local variables of [_scrollLine] that the callback of its
    [forEach] assigns. *)
Module Vars.
Record t : Type := make {
  scrollTop : num;
  editorHeight : num;
  linesInView : LinesInView.t
}.
End Vars.

(** The commands the module registers with the [CommandManager]. *)
Inductive Command : Type :=
| VIEW_INCREASE_FONT_SIZE
| VIEW_DECREASE_FONT_SIZE
| VIEW_RESTORE_FONT_SIZE
| VIEW_SCROLL_LINE_UP
| VIEW_SCROLL_LINE_DOWN.

(* ================================================================= *)
(** ** The consumed interfaces *)

(** What the module calls on the focused full editor, on its CodeMirror
    instance and on the page.  Queries read the editor state [E]; commands
    return the new state.  [css] is [$(".CodeMirror").css(prop)]: the
    computed style of the editor surface, which the browser derives from the
    style rules of the page.  [refreshAll] re-measures the editor against
    those rules.  No operation of the editor adds or removes elements of the
    document head. *)
Class Host (E : Type) : Type := {
  getScrollInfo : E -> ScrollInfo.t;
  getTextHeight : E -> num;
  getCursorPos : E -> Pos.t;
  hasSelection : E -> bool;
  lineSpaceOffsetTop : E -> num;
  getInlineWidgets : E -> list InlineWidget.t;
  _getInlineWidgetLineNumber : E -> InlineWidget.t -> num;
  getScrollPos : E -> ScrollPos.t;
  setCursorPos : Pos.t -> E -> E;
  setScrollPos : num -> num -> E -> E;
  moveV : num -> string -> E -> E;
  refreshAll : list Element.t -> E -> E;
  css : list Element.t -> string -> string
}.

(** The page: the elements of the document head and the editor returned by
    [EditorManager.getCurrentFullEditor()] (assumed to exist). *)
Record Page (E : Type) : Type := mkPage { head : list Element.t; editor : E }.

(* ================================================================= *)
(** ** The state monad of the handlers *)

Definition M (E A : Type) : Type := Page E -> A * Page E.

Definition ret {E A : Type} (a : A) : M E A := fun p => (a, p).

Definition bind {E A B : Type} (m : M E A) (k : A -> M E B) : M E B :=
  fun p => let (a, p') := m p in k a p'.

Notation "x <- m ;; k" := (bind m (fun x => k))
  (at level 61, m at next level, right associativity).
Notation "m ;;; k" := (bind m (fun _ => k))
  (at level 61, right associativity).

(** The page a handler leaves behind. *)
Definition exec {E A : Type} (m : M E A) (p : Page E) : Page E := snd (m p).

(** The value a handler computes. *)
Definition eval {E A : Type} (m : M E A) (p : Page E) : A := fst (m p).

(** A query of the focused editor. *)
Definition ask {E A : Type} (f : E -> A) : M E A :=
  fun p => (f (editor p), p).

(** A command sent to the focused editor. *)
Definition tell {E : Type} (f : E -> E) : M E unit :=
  fun p => (tt, mkPage (head p) (f (editor p))).

(** [list.forEach(f)] where the callback [f] updates the local variables
    [S] of the enclosing function. *)
Fixpoint forEach {E A S : Type} (l : list A) (f : A -> S -> M E S) (s : S)
  : M E S :=
  match l with
  | [] => ret s
  | a :: l' => s' <- f a s ;; forEach l' f s'
  end.

(* ================================================================= *)
(** ** jQuery on the document head *)

(** Removes the first element whose id is [i]: [$("#" + i)] selects through
    [getElementById], hence at most one element. *)
Fixpoint remove_by_id (i : string) (h : list Element.t) : list Element.t :=
  match h with
  | [] => []
  | el :: h' => if Element.id el =? i then h' else el :: remove_by_id i h'
  end.

(** The number of elements whose id is [i]. *)
Fixpoint count_id (i : string) (h : list Element.t) : nat :=
  match h with
  | [] => 0
  | el :: h' => (if Element.id el =? i then 1 else 0) + count_id i h'
  end.

(** [$("#" + i).remove()] *)
Definition jq_remove {E : Type} (i : string) : M E unit :=
  fun p => (tt, mkPage (remove_by_id i (head p)) (editor p)).

(** [$("head").append(el)] *)
Definition jq_append {E : Type} (el : Element.t) : M E unit :=
  fun p => (tt, mkPage (head p ++ [el]) (editor p)).

(** [$(".CodeMirror").css(prop)] *)
Definition jq_css {E : Type} `{Host E} (prop : string) : M E string :=
  fun p => (css (head p) prop, p).

(** The regular expression [/^[\d\.]+(px|em)$/], as its matcher: one or more
    digits or dots, then [px] or [em], then the end of the string. *)
Fixpoint validFont (s : string) : bool :=
  match s with
  | String c rest =>
      (is_digit c || is_dot c)
      && ((rest =? "px") || (rest =? "em") || validFont rest)
  | EmptyString => false
  end.

(** [s.search(re)] for a regular expression anchored at the start of the
    string: the index [0] of the match, or [-1]. *)
Definition search (s : string) (re : string -> bool) : num :=
  if re s then zero else minus_one.

(* ================================================================= *)
(** ** The handlers *)

Section Handlers.

Context {E : Type} `{Host E}.

Local Open Scope js_scope.

Definition DYNAMIC_FONT_STYLE_ID : string := "codemirror-dynamic-fonts".

(** [EditorManager.getCurrentFullEditor().refreshAll()]: the focused editor
    re-measures itself against the style rules of the page. *)
Definition refreshEditor : M E unit :=
  fun p => tell (refreshAll (head p)) p.

Definition _removeDynamicFontSize (refresh : bool) : M E unit :=
  jq_remove DYNAMIC_FONT_STYLE_ID ;;;
  if refresh
  then refreshEditor
  else ret tt.

(** The style element that [_adjustFontSize] builds. *)
Definition fontStyle (fsStr lhStr : string) : Element.t :=
  Element.make "style" "text/css" DYNAMIC_FONT_STYLE_ID
    (".CodeMirror {" ++
     "font-size: " ++ fsStr ++ " !important;" ++
     "line-height: " ++ lhStr ++ " !important;}")%string.

(** Increases or decreases the editor's font size: [direction] is [-1] to
    make the font smaller, [1] to make it bigger. *)
Definition _adjustFontSize (direction : num) : M E unit :=
  fsStyle <- jq_css "font-size" ;;
  lhStyle <- jq_css "line-height" ;;
  if (search fsStyle validFont === minus_one)
     || (search lhStyle validFont === minus_one)
  then ret tt
  else
    let fsUnits := substring (String.length fsStyle - 2)%nat (String.length fsStyle) fsStyle in
    let lhUnits := substring (String.length lhStyle - 2)%nat (String.length lhStyle) lhStyle in
    let fsOld := parseFloat (substring 0 (String.length fsStyle - 2)%nat fsStyle) in
    let lhOld := parseFloat (substring 0 (String.length lhStyle - 2)%nat lhStyle) in
    let fsDelta := if (fsUnits =? "px")%string then one else tenth in
    let lhDelta := if (lhUnits =? "px")%string then one else tenth in
    let fsDelta := if direction === minus_one then fsDelta * minus_one else fsDelta in
    let lhDelta := if direction === minus_one then lhDelta * minus_one else lhDelta in
    let fsNew := fsOld + fsDelta in
    let lhNew := lhOld + lhDelta in
    let fsStr := (toString fsNew ++ fsUnits)%string in
    let lhStr := (toString lhNew ++ lhUnits)%string in
    if (direction === minus_one)
       && (((fsUnits =? "px")%string && (fsNew <= one))
           || ((fsUnits =? "em")%string && (fsNew <= tenth)))
    then ret tt
    else
      _removeDynamicFontSize false ;;;
      let style := fontStyle fsStr lhStr in
      jq_append style ;;;
      refreshEditor ;;;
      if (fsUnits =? "px")%string
      then
        scrollPos <- ask getScrollPos ;;
        let scrollDeltaX := Math_round (ScrollPos.x scrollPos / lhOld) in
        let scrollDeltaY := Math_round (ScrollPos.y scrollPos / lhOld) in
        tell (setScrollPos (ScrollPos.x scrollPos + scrollDeltaX * direction)
                           (ScrollPos.y scrollPos + scrollDeltaY * direction))
      else ret tt.

Definition _handleIncreaseFontSize : M E unit := _adjustFontSize one.

Definition _handleDecreaseFontSize : M E unit := _adjustFontSize minus_one.

Definition _handleRestoreFontSize : M E unit := _removeDynamicFontSize true.

(** Calculates the first and last visible lines of the focused editor. *)
Definition _getLinesInView (scrollTop editorHeight : num) : M E LinesInView.t :=
  textHeight <- ask getTextHeight ;;
  let scrolledTop := scrollTop / textHeight in
  let scrolledBottom := (scrollTop + editorHeight) / textHeight in
  let firstLine := Math_ceil scrolledTop - one in
  let lastLine := Math_floor scrolledBottom - of_Z 2 in
  ret (LinesInView.make firstLine lastLine).

(** The callback of the [forEach] in [_scrollLine]. *)
Definition widgetCallback (textHeight : num) (inlineEditor : InlineWidget.t)
  (v : Vars.t) : M E Vars.t :=
  line <- ask (fun e => _getInlineWidgetLineNumber e inlineEditor) ;;
  let total := InlineWidget.height inlineEditor / textHeight in
  if line < LinesInView.first (Vars.linesInView v)
  then
    let scrollTop' := Vars.scrollTop v - InlineWidget.height inlineEditor in
    linesInView' <- _getLinesInView scrollTop' (Vars.editorHeight v) ;;
    ret (Vars.make scrollTop' (Vars.editorHeight v) linesInView')
  else if line + total < LinesInView.last (Vars.linesInView v)
  then
    let editorHeight' := Vars.editorHeight v - InlineWidget.height inlineEditor in
    linesInView' <- _getLinesInView (Vars.scrollTop v) editorHeight' ;;
    ret (Vars.make (Vars.scrollTop v) editorHeight' linesInView')
  else ret v.

(** Scrolls the viewport one line up ([direction = -1]) or down
    ([direction = 1]). *)
Definition _scrollLine (direction : num) : M E unit :=
  scrollInfo <- ask getScrollInfo ;;
  textHeight <- ask getTextHeight ;;
  cursorPos <- ask getCursorPos ;;
  hasSelecction <- ask hasSelection ;;
  paddingTop <- ask lineSpaceOffsetTop ;;
  let scrollTop :=
    if (ScrollInfo.top scrollInfo < paddingTop) && (direction > zero)
    then paddingTop else ScrollInfo.top scrollInfo in
  let scrolledTop := scrollTop in
  let editorHeight := ScrollInfo.clientHeight scrollInfo in
  linesInView <- _getLinesInView scrollTop editorHeight ;;
  widgets <- ask getInlineWidgets ;;
  v <- forEach widgets (widgetCallback textHeight)
         (Vars.make scrollTop editorHeight linesInView) ;;
  let linesInView := Vars.linesInView v in
  (if negb hasSelecction
   then
     if (direction > zero) && (Pos.line cursorPos < LinesInView.first linesInView)
     then tell (setCursorPos
                  (Pos.make (LinesInView.first linesInView + one) (Pos.ch cursorPos)))
     else if (direction < zero) && (Pos.line cursorPos > LinesInView.last linesInView)
     then tell (setCursorPos
                  (Pos.make (LinesInView.last linesInView - one) (Pos.ch cursorPos)))
     else if ((direction > zero) && (Pos.line cursorPos === LinesInView.first linesInView))
             || ((direction < zero) && (Pos.line cursorPos === LinesInView.last linesInView))
     then tell (moveV direction "line")
     else ret tt
   else ret tt) ;;;
  tell (setScrollPos (ScrollInfo.left scrollInfo) (scrolledTop + textHeight * direction)).

Definition _handleScrollLineUp : M E unit := _scrollLine minus_one.

Definition _handleScrollLineDown : M E unit := _scrollLine one.

(** The handler registered for each command. *)
Definition registered (c : Command) : M E unit :=
  match c with
  | VIEW_INCREASE_FONT_SIZE => _handleIncreaseFontSize
  | VIEW_DECREASE_FONT_SIZE => _handleDecreaseFontSize
  | VIEW_RESTORE_FONT_SIZE => _handleRestoreFontSize
  | VIEW_SCROLL_LINE_UP => _handleScrollLineUp
  | VIEW_SCROLL_LINE_DOWN => _handleScrollLineDown
  end.

(** The user invokes commands one after the other; each handler runs to
    completion. *)
Fixpoint execute (cs : list Command) : M E unit :=
  match cs with
  | [] => ret tt
  | c :: cs' => registered c ;;; execute cs'
  end.

End Handlers.

(* ================================================================= *)
(** ** A recording editor *)

(** An implementation of [Host] for concrete runs.  It keeps the scroll and
    cursor state in plain fields and records every command it receives, the
    latest first.  Its browser follows the override rule when there is one
    and a fixed base style otherwise. *)
Module Mock.

Inductive Call : Type :=
| SetCursorPos (pos : Pos.t)
| SetScrollPos (x y : num)
| MoveV (dir : num) (unit : string)
| RefreshAll.

Record t : Type := make {
  scrollInfo : ScrollInfo.t;
  textHeight : num;
  cursorPos : Pos.t;
  selection : bool;
  paddingTop : num;
  widgets : list (InlineWidget.t * num);
  calls : list Call
}.

Definition log (c : Call) (e : t) : t :=
  make (scrollInfo e) (textHeight e) (cursorPos e) (selection e)
       (paddingTop e) (widgets e) (c :: calls e).

Fixpoint lineOf (ws : list (InlineWidget.t * num)) (w : InlineWidget.t) : num :=
  match ws with
  | [] => NaN
  | (w', l) :: ws' =>
      if Nat.eqb (InlineWidget.id w') (InlineWidget.id w) then l else lineOf ws' w
  end.

Definition scrollTo (x y : num) (e : t) : t :=
  make (ScrollInfo.make y x (ScrollInfo.clientHeight (scrollInfo e)))
       (textHeight e) (cursorPos e) (selection e) (paddingTop e) (widgets e)
       (SetScrollPos x y :: calls e).

Definition cursorTo (pos : Pos.t) (e : t) : t :=
  make (scrollInfo e) (textHeight e) pos (selection e) (paddingTop e)
       (widgets e) (SetCursorPos pos :: calls e).

Definition lineMotion (dir : num) (unit : string) (e : t) : t :=
  make (scrollInfo e) (textHeight e)
       (Pos.make (js_add (Pos.line (cursorPos e)) dir) (Pos.ch (cursorPos e)))
       (selection e) (paddingTop e) (widgets e) (MoveV dir unit :: calls e).

(** The text of [s] up to its first space. *)
Fixpoint upToSpace (s : string) : string :=
  match s with
  | String c rest =>
      if Ascii.eqb c " "%char then EmptyString else String c (upToSpace rest)
  | EmptyString => EmptyString
  end.

Definition dropPrefix (n : nat) (s : string) : string :=
  String.substring n (String.length s - n) s.

(** The two values of an override rule [".CodeMirror {font-size: F
    !important;line-height: L !important;}"]. *)
Definition ruleValues (rule : string) : string * string :=
  let afterFs := dropPrefix (String.length ".CodeMirror {font-size: ") rule in
  let fs := upToSpace afterFs in
  let afterLh :=
    dropPrefix (String.length fs + String.length " !important;line-height: ")
               afterFs in
  (fs, upToSpace afterLh).

(** The last override rule of the head wins over the base style. *)
Fixpoint computedStyle (base : string * string) (h : list Element.t)
  : string * string :=
  match h with
  | [] => base
  | el :: h' =>
      computedStyle
        (if Element.id el =? "codemirror-dynamic-fonts"
         then ruleValues (Element.html el) else base) h'
  end.

Definition styleOf (baseFs baseLh : string) (h : list Element.t) (prop : string)
  : string :=
  let (fs, lh) := computedStyle (baseFs, baseLh) h in
  if prop =? "font-size" then fs
  else if prop =? "line-height" then lh
  else EmptyString.

(** The recording editor in a page whose style sheets give the editor
    surface the font size [baseFs] and the line height [baseLh]. *)
Definition host (baseFs baseLh : string) : Host t := {|
  getScrollInfo := scrollInfo;
  getTextHeight := textHeight;
  getCursorPos := cursorPos;
  hasSelection := selection;
  lineSpaceOffsetTop := paddingTop;
  getInlineWidgets := fun e => map fst (widgets e);
  _getInlineWidgetLineNumber := fun e w => lineOf (widgets e) w;
  getScrollPos := fun e =>
    ScrollPos.make (ScrollInfo.left (scrollInfo e)) (ScrollInfo.top (scrollInfo e));
  setCursorPos := cursorTo;
  setScrollPos := scrollTo;
  moveV := lineMotion;
  refreshAll := fun _ e => log RefreshAll e;
  css := styleOf baseFs baseLh
|}.

(** An editor scrolled to [(left, top)] with a viewport of height
    [clientHeight], lines of height [th], the cursor at [(line, 0)]. *)
Definition editorAt (top left clientHeight th line : Z) (sel : bool)
  (padding : Z) (ws : list (InlineWidget.t * num)) : t :=
  make (ScrollInfo.make (of_Z top) (of_Z left) (of_Z clientHeight)) (of_Z th)
       (Pos.make (of_Z line) zero) sel (of_Z padding) ws [].

End Mock.

(* ================================================================= *)
(** ** The contracts the handlers are checked against *)

Section Contracts.

Context {E : Type} `{Host E}.

Local Open Scope js_scope.

(** The visible-line calculator as the specification words it:
    [first = ceil(scrollOffset / perLineTextHeight) - 1] and
    [last = floor((scrollOffset + viewportHeight) / perLineTextHeight) - 2]. *)
Definition computeVisibleLines (perLineTextHeight scrollOffset viewportHeight : num)
  : LinesInView.t :=
  LinesInView.make
    (Math_ceil (scrollOffset / perLineTextHeight) - one)
    (Math_floor ((scrollOffset + viewportHeight) / perLineTextHeight) - of_Z 2).

(** The correction for one inline widget anchored at line [L] with height
    [Ht], as the specification words it: above the first visible line the
    height comes off the scroll top, else with its lower edge above the last
    visible line it comes off the viewport height; the range is recomputed. *)
Definition widgetAdjust (perLineTextHeight L Ht : num) (v : Vars.t) : Vars.t :=
  if L < LinesInView.first (Vars.linesInView v)
  then Vars.make (Vars.scrollTop v - Ht) (Vars.editorHeight v)
         (computeVisibleLines perLineTextHeight
            (Vars.scrollTop v - Ht) (Vars.editorHeight v))
  else if L + Ht / perLineTextHeight < LinesInView.last (Vars.linesInView v)
  then Vars.make (Vars.scrollTop v) (Vars.editorHeight v - Ht)
         (computeVisibleLines perLineTextHeight
            (Vars.scrollTop v) (Vars.editorHeight v - Ht))
  else v.

(** The scroll top that [_scrollLine] starts the range computation from:
    the top padding when the editor is scrolled above it and the direction
    is down, the actual scroll top otherwise. *)
Definition clampedScrollTop (e : E) (direction : num) : num :=
  if (ScrollInfo.top (getScrollInfo e) < lineSpaceOffsetTop e) && (direction > zero)
  then lineSpaceOffsetTop e
  else ScrollInfo.top (getScrollInfo e).

(** The local variables of [_scrollLine] before its [forEach]. *)
Definition initialVars (e : E) (direction : num) : Vars.t :=
  Vars.make (clampedScrollTop e direction)
    (ScrollInfo.clientHeight (getScrollInfo e))
    (computeVisibleLines (getTextHeight e) (clampedScrollTop e direction)
       (ScrollInfo.clientHeight (getScrollInfo e))).

(** The local variables after the widgets [ws] were visited in order. *)
Definition afterWidgets (e : E) (ws : list InlineWidget.t) (v : Vars.t) : Vars.t :=
  fold_left
    (fun v w =>
       widgetAdjust (getTextHeight e) (_getInlineWidgetLineNumber e w)
         (InlineWidget.height w) v)
    ws v.

(** The visible range [_scrollLine] adjusts the cursor against. *)
Definition visibleRange (e : E) (direction : num) : LinesInView.t :=
  Vars.linesInView (afterWidgets e (getInlineWidgets e) (initialVars e direction)).

(** The editor after the cursor adjustment of [_scrollLine] against the
    range [r]. *)
Definition cursorStep (direction : num) (r : LinesInView.t) (e : E) : E :=
  let cursorPos := getCursorPos e in
  if negb (hasSelection e)
  then
    if (direction > zero) && (Pos.line cursorPos < LinesInView.first r)
    then setCursorPos (Pos.make (LinesInView.first r + one) (Pos.ch cursorPos)) e
    else if (direction < zero) && (Pos.line cursorPos > LinesInView.last r)
    then setCursorPos (Pos.make (LinesInView.last r - one) (Pos.ch cursorPos)) e
    else if ((direction > zero) && (Pos.line cursorPos === LinesInView.first r))
            || ((direction < zero) && (Pos.line cursorPos === LinesInView.last r))
    then moveV direction "line" e
    else e
  else e.

(** The final call of [_scrollLine]. *)
Definition scrollStep (direction : num) (e0 e : E) : E :=
  setScrollPos (ScrollInfo.left (getScrollInfo e0))
    (clampedScrollTop e0 direction + getTextHeight e0 * direction) e.

(** The vertical offset the specification gives for the final call of
    [scrollLine]: the original scroll top plus one line in the direction. *)
Definition originalTopPlusLine (e : E) (direction : num) : num :=
  ScrollInfo.top (getScrollInfo e) + getTextHeight e * direction.

(** The unit and the number of a style value that matches [validFont]. *)
Definition unitsOf (style : string) : string :=
  substring (String.length style - 2)%nat (String.length style) style.

Definition valueOf (style : string) : num :=
  parseFloat (substring 0 (String.length style - 2)%nat style).

(** The signed step of [_adjustFontSize]: one pixel or a tenth of an em. *)
Definition stepOf (units : string) (direction : num) : num :=
  let delta := if (units =? "px")%string then one else tenth in
  if direction === minus_one then delta * minus_one else delta.

(** The guard "don't let the fonts get too small". *)
Definition tooSmall (direction : num) (units : string) (size : num) : bool :=
  (direction === minus_one)
  && (((units =? "px")%string && (size <= one))
      || ((units =? "em")%string && (size <= tenth))).

(** Both computed styles are expressed in [px] or [em]. *)
Definition stylesValid (h : list Element.t) : bool :=
  validFont (css h "font-size") && validFont (css h "line-height").

(** The font size and the line height [_adjustFontSize] computes. *)
Definition newFontSize (h : list Element.t) (direction : num) : num :=
  valueOf (css h "font-size") + stepOf (unitsOf (css h "font-size")) direction.

Definition newLineHeight (h : list Element.t) (direction : num) : num :=
  valueOf (css h "line-height") + stepOf (unitsOf (css h "line-height")) direction.

(** The rule [_adjustFontSize] installs. *)
Definition newRule (h : list Element.t) (direction : num) : Element.t :=
  fontStyle
    (toString (newFontSize h direction) ++ unitsOf (css h "font-size"))%string
    (toString (newLineHeight h direction) ++ unitsOf (css h "line-height"))%string.

(** The scroll offset [pos] after the correction of [_adjustFontSize]: one
    unit in the direction for every line of height [lhOld] above it. *)
Definition rescaled (pos lhOld direction : num) : num :=
  pos + Math_round (pos / lhOld) * direction.

(** The editor after [_adjustFontSize] installed its rule in the head [h']. *)
Definition refreshedAndScrolled (h h' : list Element.t) (direction : num) (e : E) : E :=
  let e1 := refreshAll h' e in
  if (unitsOf (css h "font-size") =? "px")%string
  then
    setScrollPos
      (rescaled (ScrollPos.x (getScrollPos e1)) (valueOf (css h "line-height")) direction)
      (rescaled (ScrollPos.y (getScrollPos e1)) (valueOf (css h "line-height")) direction)
      e1
  else e1.

(** An override rule the guard lets through. *)
Definition sizeAllowed (units : string) (size : num) : bool :=
  negb (((units =? "px")%string && (size <= one))
        || ((units =? "em")%string && (size <= tenth))).

Definition allowedRule (el : Element.t) : Prop :=
  exists size units lhStr,
    el = fontStyle (toString size ++ units)%string lhStr
    /\ (units = "px" \/ units = "em")
    /\ sizeAllowed units size = true.

(** [n] invocations of a handler in a row. *)
Fixpoint times (n : nat) (m : M E unit) : M E unit :=
  match n with
  | O => ret tt
  | S n' => m ;;; times n' m
  end.

(** The computed font size of the page is [q] pixels and the computed line
    height is one [_adjustFontSize] accepts. *)
Definition fontSizePx (h : list Element.t) (q : Q) : Prop :=
  stylesValid h = true
  /\ unitsOf (css h "font-size") = "px"
  /\ (valueOf (css h "font-size") === Fin q) = true.

(** The head holds the override rule of a font size of [q] pixels, as its
    last element. *)
Definition overridePx (h : list Element.t) (q : Q) : Prop :=
  exists (h0 : list Element.t) (lhStr : string),
    h = (h0 ++ [fontStyle (toString (Fin q) ++ "px")%string lhStr])%list.

End Contracts.

(* ================================================================= *)
(** ** Concrete pages *)

Module Examples.

(** The base style of the examples: 13 pixel text on 15 pixel lines. *)
Definition base : Host Mock.t := Mock.host "13px" "15px".

(** Scrolled to 60 with a viewport of 100 and lines of 10: the lines 5 to 14
    are visible; the cursor is on line 4; no selection, no widgets. *)
Definition cursorAbove : Page Mock.t :=
  mkPage [] (Mock.editorAt 60 0 100 10 4 false 0 []).

(** The same editor with a selection. *)
Definition selecting : Page Mock.t :=
  mkPage [] (Mock.editorAt 60 0 100 10 4 true 0 []).

(** Scrolled to the very top of a document whose text starts after a padding
    of 4. *)
Definition aboveContent : Page Mock.t :=
  mkPage [] (Mock.editorAt 0 0 100 10 0 false 4 []).

(** A widget of height 30 anchored at line 2, above the visible lines. *)
Definition widgetAbove : InlineWidget.t := InlineWidget.make 1 (of_Z 30).

Definition withWidget : Page Mock.t :=
  mkPage [] (Mock.editorAt 60 0 100 10 4 false 0 [(widgetAbove, of_Z 2)]).

(** Scrolled to 100 on lines of 10 pixels. *)
Definition tenPixelLines : Host Mock.t := Mock.host "13px" "10px".

Definition scrolled : Page Mock.t :=
  mkPage [] (Mock.editorAt 100 0 200 10 0 false 0 []).


Definition twoPixels : Host Mock.t := Mock.host "2px" "15px".

(** A page whose style sheets size the text in percent. *)
Definition percent : Host Mock.t := Mock.host "50%" "15px".

(** A page sized in em. *)
Definition relative : Host Mock.t := Mock.host "1.2em" "1.5em".

End Examples.

(* ================================================================= *)
(** ** Registration, and vocabulary for further properties *)

(** A whole number of at most [2 ^ 24] in magnitude.  Sums and products of
    two such numbers stay far below [2 ^ 53], the range in which the
    arithmetic of doubles on whole numbers is exact, and the quotient of two
    of them rounds to the right side of every whole number; on such numbers
    the exact arithmetic of the model and the arithmetic of the language
    give the same results. *)
Definition small (z : Z) : Prop := (Z.abs z <= 2 ^ 24)%Z.

(** The commands bound to keys directly: there are no menu items for them
    ([KeyBindingManager.addBinding]). *)
Definition keyBound : list Command :=
  [VIEW_SCROLL_LINE_UP; VIEW_SCROLL_LINE_DOWN].

Definition digitOrDot (c : ascii) : bool := is_digit c || is_dot c.

(** Every character of [s] is a digit or a dot. *)
Fixpoint digitsOrDots (s : string) : bool :=
  match s with
  | String c rest => digitOrDot c && digitsOrDots rest
  | EmptyString => true
  end.

(** The character of [s] at index [n] exists and is a digit. *)
Definition digitAt (n : nat) (s : string) : bool :=
  match String.get n s with
  | Some c => is_digit c
  | None => false
  end.

(** The elements of the head other than the dynamic font rule, in order. *)
Definition otherElements (h : list Element.t) : list Element.t :=
  filter (fun el => negb (Element.id el =? DYNAMIC_FONT_STYLE_ID)) h.

(** The heights of the widgets are whole numbers [hs], none negative. *)
Definition wholeHeights (ws : list InlineWidget.t) (hs : list Z) : Prop :=
  Forall2 (fun w h => InlineWidget.height w = of_Z h /\ (0 <= h)%Z) ws hs.

Definition sumZ (hs : list Z) : Z := fold_right Z.add 0%Z hs.

Section Laws.

Context {E : Type} `{Host E}.

(** An editor that scrolls where it is told: [setScrollPos] sets the two
    offsets that [getScrollInfo] reports and nothing else the line scroller
    reads, and moving the cursor changes none of the scroll metrics. *)
Record ScrollLaws : Prop := {
  scrollInfo_setScrollPos : forall x y e,
    getScrollInfo (setScrollPos x y e)
    = ScrollInfo.make y x (ScrollInfo.clientHeight (getScrollInfo e));
  textHeight_setScrollPos : forall x y e,
    getTextHeight (setScrollPos x y e) = getTextHeight e;
  offsetTop_setScrollPos : forall x y e,
    lineSpaceOffsetTop (setScrollPos x y e) = lineSpaceOffsetTop e;
  scrollInfo_setCursorPos : forall pos e,
    getScrollInfo (setCursorPos pos e) = getScrollInfo e;
  textHeight_setCursorPos : forall pos e,
    getTextHeight (setCursorPos pos e) = getTextHeight e;
  offsetTop_setCursorPos : forall pos e,
    lineSpaceOffsetTop (setCursorPos pos e) = lineSpaceOffsetTop e;
  scrollInfo_moveV : forall dir unit e,
    getScrollInfo (moveV dir unit e) = getScrollInfo e;
  textHeight_moveV : forall dir unit e,
    getTextHeight (moveV dir unit e) = getTextHeight e;
  offsetTop_moveV : forall dir unit e,
    lineSpaceOffsetTop (moveV dir unit e) = lineSpaceOffsetTop e
}.

End Laws.

Module MoreExamples.

(** A page whose font size is a lone dot before the unit. *)
Definition dots : Host Mock.t := Mock.host "..px" "15px".

(** 13 pixel text on lines of one pixel. *)
Definition thinLines : Host Mock.t := Mock.host "13px" "1px".

(** A head with a foreign element before and after a dynamic rule. *)
Definition foreign (name : string) : Element.t :=
  Element.make "style" "text/css" name "body {margin: 0}".

Definition crowded : Page Mock.t :=
  mkPage [foreign "first"; fontStyle "12px" "14px"; foreign "second"]
    (editor Examples.scrolled).

(** Two widgets of heights 30 and 20: the first above the visible lines,
    the second inside them. *)
Definition twoWidgets : Page Mock.t :=
  mkPage []
    (Mock.editorAt 60 0 100 10 4 false 0
       [(InlineWidget.make 1 (of_Z 30), of_Z 2);
        (InlineWidget.make 2 (of_Z 20), of_Z 3)]).

(** The cursor on line 9, inside the visible lines 5 to 14. *)
Definition cursorInside : Page Mock.t :=
  mkPage [] (Mock.editorAt 60 0 100 10 9 false 0 []).

End MoreExamples.

(* ================================================================= *)
(** * Proofs *)

(** ** Arithmetic of the number model *)

Module JSFacts.

Lemma Qred_inject_Z (z : Z) : Qred (inject_Z z) = inject_Z z.
Proof.
  unfold Qred, inject_Z.
  pose proof (Z.ggcd_gcd z 1) as Hg.
  pose proof (Z.ggcd_correct_divisors z 1) as Hd.
  destruct (Z.ggcd z 1) as [g [a b]]. simpl in *.
  rewrite Z.gcd_1_r in Hg. subst g. destruct Hd as [Ha Hb].
  replace a with z by lia. replace b with 1%Z by lia. reflexivity.
Qed.

Lemma Qred_eq (a b : Q) : a == b -> Qred a = Qred b.
Proof. apply Qred_complete. Qed.

Lemma add_of_Z (a b : Z) : js_add (of_Z a) (of_Z b) = of_Z (a + b).
Proof.
  unfold js_add, of_Z. f_equal.
  rewrite <- (Qred_inject_Z (a + b)). apply Qred_eq.
  rewrite inject_Z_plus. reflexivity.
Qed.

Lemma sub_of_Z (a b : Z) : js_sub (of_Z a) (of_Z b) = of_Z (a - b).
Proof.
  unfold js_sub, js_neg, js_add, of_Z. f_equal.
  rewrite <- (Qred_inject_Z (a - b)). apply Qred_eq.
  rewrite Qred_correct. unfold Z.sub.
  rewrite inject_Z_plus, inject_Z_opp. reflexivity.
Qed.

Lemma mul_of_Z (a b : Z) : js_mul (of_Z a) (of_Z b) = of_Z (a * b).
Proof.
  unfold js_mul, of_Z. f_equal.
  rewrite <- (Qred_inject_Z (a * b)). apply Qred_eq.
  rewrite inject_Z_mult. reflexivity.
Qed.

Lemma div_Fin (a b : Q) : ~ b == 0 -> js_div (Fin a) (Fin b) = Fin (Qred (a / b)).
Proof.
  intros Hb. unfold js_div.
  destruct (Qeq_bool b 0) eqn:Eb; [|reflexivity].
  apply Qeq_bool_eq in Eb. contradiction.
Qed.

Lemma Qlt_bool_iff (a b : Q) : Qlt_bool a b = true <-> a < b.
Proof.
  unfold Qlt_bool. rewrite negb_true_iff.
  split; intros Hlt.
  - destruct (Qlt_le_dec a b) as [Hl|Hl]; [exact Hl|].
    apply Qle_bool_iff in Hl. congruence.
  - destruct (Qle_bool b a) eqn:Eb; [|reflexivity].
    apply Qle_bool_iff in Eb. lra.
Qed.

Lemma lt_Fin (a b : Q) : js_lt (Fin a) (Fin b) = true <-> a < b.
Proof. apply Qlt_bool_iff. Qed.

Lemma seq_Fin (a b : Q) : js_seq (Fin a) (Fin b) = true <-> a == b.
Proof. apply Qeq_bool_iff. Qed.

Lemma le_Fin (a b : Q) : js_le (Fin a) (Fin b) = true <-> a <= b.
Proof.
  unfold js_le. rewrite orb_true_iff, lt_Fin, seq_Fin.
  split; [intros [Hl|He]; lra|].
  intros Hle. destruct (Qlt_le_dec a b); [left; assumption|right; lra].
Qed.

Lemma le_Fin_false (a b : Q) : js_le (Fin a) (Fin b) = false <-> b < a.
Proof.
  rewrite <- not_true_iff_false, le_Fin. split; intros; lra.
Qed.

(** [<] is asymmetric, also at the infinities and at [NaN]. *)
Lemma lt_asym (a b : num) : js_lt a b = true -> js_lt b a = false.
Proof.
  destruct a as [x| | |], b as [y| | |]; simpl; try congruence.
  intros Hlt. apply Qlt_bool_iff in Hlt.
  apply not_true_iff_false. rewrite Qlt_bool_iff. lra.
Qed.

(** Strictly equal numbers are not ordered. *)
Lemma seq_not_lt (a b : num) : js_seq a b = true -> js_lt a b = false.
Proof.
  destruct a as [x| | |], b as [y| | |]; simpl; try congruence.
  intros He. apply Qeq_bool_eq in He.
  apply not_true_iff_false. rewrite Qlt_bool_iff. lra.
Qed.

Lemma seq_not_gt (a b : num) : js_seq a b = true -> js_lt b a = false.
Proof.
  destruct a as [x| | |], b as [y| | |]; simpl; try congruence.
  intros He. apply Qeq_bool_eq in He.
  apply not_true_iff_false. rewrite Qlt_bool_iff. lra.
Qed.

(** The printed form of a finite number depends on its value only. *)
Lemma toString_Fin_eq (a b : Q) : a == b -> toString (Fin a) = toString (Fin b).
Proof.
  intros Hab. unfold toString. rewrite (Qred_eq Hab). reflexivity.
Qed.

End JSFacts.

(* ================================================================= *)
(** ** What each handler computes *)

Section HandlerFacts.

Context {E : Type} `{Host E}.

Local Open Scope js_scope.

Lemma search_validFont (s : string) :
  (search s validFont === minus_one) = negb (validFont s).
Proof. unfold search. destruct (validFont s); reflexivity. Qed.

(** A style value that matches has at least three characters and ends in
    one of the two units: the slicing that follows the validation in
    [_adjustFontSize] is sound. *)
Lemma validFont_length (s : string) : validFont s = true -> (3 <= String.length s)%nat.
Proof.
  induction s as [|c s IH]; simpl; [discriminate|].
  intros Hv. apply andb_true_iff in Hv. destruct Hv as [_ Hv].
  apply orb_true_iff in Hv. destruct Hv as [Hv|Hv].
  - apply orb_true_iff in Hv.
    destruct Hv as [Hv|Hv]; apply String.eqb_eq in Hv; subst s; simpl; lia.
  - specialize (IH Hv). lia.
Qed.

Lemma unitsOf_cons (c : ascii) (s : string) :
  (2 <= String.length s)%nat -> unitsOf (String c s) = unitsOf s.
Proof.
  intros Hl. unfold unitsOf, substring. simpl String.length.
  replace (S (String.length s) - 2)%nat with (S (String.length s - 2)) by lia.
  simpl. reflexivity.
Qed.

Lemma validFont_units (s : string) :
  validFont s = true -> unitsOf s = "px" \/ unitsOf s = "em".
Proof.
  induction s as [|c s IH]; simpl; [discriminate|].
  intros Hv. apply andb_true_iff in Hv. destruct Hv as [_ Hv].
  apply orb_true_iff in Hv. destruct Hv as [Hv|Hv].
  - apply orb_true_iff in Hv.
    destruct Hv as [Hv|Hv]; apply String.eqb_eq in Hv; subst s;
      [left|right]; reflexivity.
  - rewrite unitsOf_cons; [apply IH, Hv|].
    pose proof (validFont_length s Hv). lia.
Qed.

Lemma getLinesInView_run (s v : num) (p : Page E) :
  _getLinesInView s v p = (computeVisibleLines (getTextHeight (editor p)) s v, p).
Proof. reflexivity. Qed.

Lemma widgetCallback_run (w : InlineWidget.t) (v : Vars.t) (p : Page E) :
  widgetCallback (getTextHeight (editor p)) w v p
  = (widgetAdjust (getTextHeight (editor p))
       (_getInlineWidgetLineNumber (editor p) w) (InlineWidget.height w) v, p).
Proof.
  unfold widgetCallback, widgetAdjust, bind, ask. simpl.
  destruct (_getInlineWidgetLineNumber (editor p) w
            < LinesInView.first (Vars.linesInView v)); [reflexivity|].
  destruct (_getInlineWidgetLineNumber (editor p) w
            + InlineWidget.height w / getTextHeight (editor p)
            < LinesInView.last (Vars.linesInView v)); reflexivity.
Qed.

Lemma forEach_widgets (ws : list InlineWidget.t) (v : Vars.t) (p : Page E) :
  forEach ws (widgetCallback (getTextHeight (editor p))) v p
  = (afterWidgets (editor p) ws v, p).
Proof.
  revert v. induction ws as [|w ws IH]; intros v; [reflexivity|].
  simpl. unfold bind. rewrite widgetCallback_run. apply IH.
Qed.

(** [_scrollLine] adjusts the cursor against the visible range and then
    scrolls; it leaves the document head alone. *)
Lemma scrollLine_run (direction : num) (p : Page E) :
  _scrollLine direction p
  = (tt, mkPage (head p)
           (scrollStep direction (editor p)
              (cursorStep direction (visibleRange (editor p) direction) (editor p)))).
Proof.
  cbv beta iota zeta delta [_scrollLine bind ask ret _getLinesInView].
  rewrite forEach_widgets.
  unfold cursorStep, scrollStep, tell, visibleRange, initialVars,
    computeVisibleLines, clampedScrollTop.
  destruct (hasSelection (editor p)); cbv beta iota zeta; [reflexivity|].
  repeat match goal with
         | |- context [if ?c then _ else _] => destruct c; cbv beta iota zeta
         end; reflexivity.
Qed.

Lemma adjustFontSize_invalid (direction : num) (p : Page E) :
  stylesValid (head p) = false -> _adjustFontSize direction p = (tt, p).
Proof.
  unfold stylesValid, _adjustFontSize, bind, jq_css. simpl.
  rewrite !search_validFont. intros Hv.
  destruct (validFont (css (head p) "font-size")),
           (validFont (css (head p) "line-height")); simpl in *;
    congruence || reflexivity.
Qed.

Lemma adjustFontSize_small (direction : num) (p : Page E) :
  stylesValid (head p) = true ->
  tooSmall direction (unitsOf (css (head p) "font-size"))
    (newFontSize (head p) direction) = true ->
  _adjustFontSize direction p = (tt, p).
Proof.
  unfold stylesValid, _adjustFontSize, bind, jq_css. simpl.
  rewrite !search_validFont. intros Hv Hs.
  apply andb_true_iff in Hv. destruct Hv as [Hf Hl]. rewrite Hf, Hl. simpl.
  unfold tooSmall, newFontSize, stepOf, valueOf, unitsOf in Hs.
  rewrite Hs. reflexivity.
Qed.

Lemma adjustFontSize_run (direction : num) (p : Page E) :
  stylesValid (head p) = true ->
  tooSmall direction (unitsOf (css (head p) "font-size"))
    (newFontSize (head p) direction) = false ->
  _adjustFontSize direction p
  = (tt, mkPage
           (remove_by_id DYNAMIC_FONT_STYLE_ID (head p) ++ [newRule (head p) direction])
           (refreshedAndScrolled (head p)
              (remove_by_id DYNAMIC_FONT_STYLE_ID (head p) ++ [newRule (head p) direction])
              direction (editor p))).
Proof.
  unfold stylesValid, _adjustFontSize, bind, jq_css. simpl.
  rewrite !search_validFont. intros Hv Hs.
  apply andb_true_iff in Hv. destruct Hv as [Hf Hl]. rewrite Hf, Hl. simpl.
  unfold tooSmall, newFontSize, stepOf, valueOf, unitsOf in Hs.
  rewrite Hs.
  unfold refreshedAndScrolled, newRule, newFontSize, newLineHeight, stepOf,
    valueOf, unitsOf, rescaled.
  destruct (substring (String.length (css (head p) "font-size") - 2)
              (String.length (css (head p) "font-size"))
              (css (head p) "font-size") =? "px")%string; reflexivity.
Qed.

(** The three outcomes of [_adjustFontSize], by its two guards. *)
Lemma adjustFontSize_cases (direction : num) (p : Page E) :
  exec (_adjustFontSize direction) p = p
  \/ (stylesValid (head p) = true
      /\ tooSmall direction (unitsOf (css (head p) "font-size"))
           (newFontSize (head p) direction) = false
      /\ exec (_adjustFontSize direction) p
         = mkPage
             (remove_by_id DYNAMIC_FONT_STYLE_ID (head p) ++ [newRule (head p) direction])
             (refreshedAndScrolled (head p)
                (remove_by_id DYNAMIC_FONT_STYLE_ID (head p)
                   ++ [newRule (head p) direction])
                direction (editor p))).
Proof.
  unfold exec.
  destruct (stylesValid (head p)) eqn:Hv.
  - destruct (tooSmall direction (unitsOf (css (head p) "font-size"))
                (newFontSize (head p) direction)) eqn:Hs.
    + left. rewrite adjustFontSize_small by assumption. reflexivity.
    + right. rewrite adjustFontSize_run by assumption. auto.
  - left. rewrite adjustFontSize_invalid by assumption. reflexivity.
Qed.

Lemma restoreFontSize_run (p : Page E) :
  _handleRestoreFontSize p
  = (tt, mkPage (remove_by_id DYNAMIC_FONT_STYLE_ID (head p))
           (refreshAll (remove_by_id DYNAMIC_FONT_STYLE_ID (head p)) (editor p))).
Proof. reflexivity. Qed.

End HandlerFacts.

(* ================================================================= *)
(** ** The visible lines *)

Section VisibleLines.

Context {E : Type} `{Host E}.

Local Open Scope js_scope.

Import JSFacts.

(** In the exact arithmetic of the model, for finite inputs and a text
    height other than zero, the calculator returns the integers
    [ceil(s / h) - 1] and [floor((s + v) / h) - 2] of the exact quotients.
    (Doubles agree on whole numbers of moderate size, which is where the
    properties below use this.) *)
Lemma computeVisibleLines_Fin (h s v : Q) :
  ~ (h == 0)%Q ->
  computeVisibleLines (Fin h) (Fin s) (Fin v)
  = LinesInView.make (of_Z (Qceiling (s / h) - 1))
                     (of_Z (Qfloor ((s + v) / h) - 2)).
Proof.
  intros Hh. unfold computeVisibleLines.
  replace (Fin s + Fin v) with (Fin (Qred (s + v))) by reflexivity.
  rewrite !div_Fin by assumption.
  unfold Math_ceil, Math_floor, one. rewrite !sub_of_Z.
  rewrite (Qceiling_comp (Qred (s / h)) (s / h)) by apply Qred_correct.
  rewrite (Qfloor_comp (Qred (Qred (s + v) / h)) ((s + v) / h)).
  - reflexivity.
  - rewrite !Qred_correct. reflexivity.
Qed.

(** In the exact arithmetic of the model, with a positive text height:
    [first] is the line that ends at or after the scroll offset and starts
    before it, and line [last + 2] is the last one that starts at or before
    the bottom of the viewport. *)
Lemma computeVisibleLines_bounds (h s v : Q) :
  (0 < h)%Q ->
  exists f l : Z,
    computeVisibleLines (Fin h) (Fin s) (Fin v)
    = LinesInView.make (of_Z f) (of_Z l)
    /\ (inject_Z f * h < s)%Q /\ (s <= (inject_Z f + 1) * h)%Q
    /\ ((inject_Z l + 2) * h <= s + v)%Q /\ (s + v < (inject_Z l + 3) * h)%Q.
Proof.
  intros Hh.
  exists (Qceiling (s / h) - 1)%Z, (Qfloor ((s + v) / h) - 2)%Z.
  split; [apply computeVisibleLines_Fin; lra|].
  assert (Hs : (s == s / h * h)%Q) by (field; lra).
  assert (Hb : (s + v == (s + v) / h * h)%Q) by (field; lra).
  pose proof (Qceiling_lt (s / h)) as H1.
  pose proof (Qle_ceiling (s / h)) as H2.
  pose proof (Qfloor_le ((s + v) / h)) as H3.
  pose proof (Qlt_floor ((s + v) / h)) as H4.
  set (x := (s / h)%Q) in *. set (y := ((s + v) / h)%Q) in *.
  assert (Hc : (inject_Z (Qceiling x - 1) == inject_Z (Qceiling x) - 1)%Q).
  { unfold Z.sub. rewrite inject_Z_plus, inject_Z_opp. reflexivity. }
  assert (Hf : (inject_Z (Qfloor y - 2) == inject_Z (Qfloor y) - 2)%Q).
  { unfold Z.sub. rewrite inject_Z_plus, inject_Z_opp. reflexivity. }
  rewrite inject_Z_plus in H4. change (inject_Z 1) with 1%Q in H4.
  rewrite Hc in H1. rewrite Hc, Hf.
  repeat split.
  - rewrite Hs. apply Qmult_lt_r; [assumption|]. lra.
  - rewrite Hs at 1. apply Qmult_le_r; [assumption|]. lra.
  - rewrite Hb. apply Qmult_le_r; [assumption|]. lra.
  - rewrite Hb at 1. apply Qmult_lt_r; [assumption|]. lra.
Qed.


End VisibleLines.


(* ================================================================= *)
(** ** Scrolling by one line *)

Section ScrollLine.

Context {E : Type} `{Host E}.

Local Open Scope js_scope.

Import JSFacts.

(** C2: [_scrollLine] visits the inline widgets in enumeration order, each
    against the range recomputed so far.  For a widget anchored at line [L]
    with height [Ht]: if [L] is strictly less than the current first visible
    line, [Ht] is subtracted from the scroll top and the range is recomputed;
    otherwise, if [L + Ht / textHeight] is strictly less than the current
    last visible line, [Ht] is subtracted from the viewport height and the
    range is recomputed; otherwise nothing changes.  [_scrollLine] runs this
    loop over the widgets the editor enumerates, starting from the clamped
    scroll top, the viewport height and their range, and adjusts the cursor
    against the range the loop leaves.  Hence a single widget above the
    first visible line makes the scroll top used for the range exactly [Ht]
    lower than without widgets. *)
Theorem widgets_adjust_in_order
  (w : InlineWidget.t) (ws : list InlineWidget.t) (v : Vars.t) (p : Page E)
  (direction : num) :
  let th := getTextHeight (editor p) in
  let L := _getInlineWidgetLineNumber (editor p) w in
  let Ht := InlineWidget.height w in
  let first := LinesInView.first (Vars.linesInView v) in
  let last := LinesInView.last (Vars.linesInView v) in
  widgetCallback th w v p = (widgetAdjust th L Ht v, p)
  /\ forEach [] (widgetCallback th) v p = (v, p)
  /\ forEach (w :: ws) (widgetCallback th) v p
     = forEach ws (widgetCallback th) (widgetAdjust th L Ht v) p
  /\ ((L < first) = true ->
      widgetAdjust th L Ht v
      = Vars.make (Vars.scrollTop v - Ht) (Vars.editorHeight v)
          (eval (_getLinesInView (Vars.scrollTop v - Ht) (Vars.editorHeight v)) p))
  /\ ((L < first) = false -> (L + Ht / th < last) = true ->
      widgetAdjust th L Ht v
      = Vars.make (Vars.scrollTop v) (Vars.editorHeight v - Ht)
          (eval (_getLinesInView (Vars.scrollTop v) (Vars.editorHeight v - Ht)) p))
  /\ ((L < first) = false -> (L + Ht / th < last) = false ->
      widgetAdjust th L Ht v = v)
  /\ ((L < first) = true ->
      Vars.scrollTop (eval (forEach [w] (widgetCallback th) v) p)
      = Vars.scrollTop (eval (forEach [] (widgetCallback th) v) p) - Ht)
  /\ (let e := editor p in
      let top := clampedScrollTop e direction in
      let height := ScrollInfo.clientHeight (getScrollInfo e) in
      let start := Vars.make top height (eval (_getLinesInView top height) p) in
      let final := eval (forEach (getInlineWidgets e) (widgetCallback th) start) p in
      exec (_scrollLine direction) p
      = mkPage (head p)
          (scrollStep direction e
             (cursorStep direction (Vars.linesInView final) e))
      /\ (getInlineWidgets e = [] -> final = start)
      /\ (getInlineWidgets e = [w] ->
          (L < LinesInView.first (Vars.linesInView start)) = true ->
          Vars.scrollTop final = top - Ht
          /\ Vars.linesInView final = eval (_getLinesInView (top - Ht) height) p)).
Proof.
  intros th L Ht first last.
  assert (Hcb : forall v', widgetCallback th w v' p = (widgetAdjust th L Ht v', p))
    by (intros v'; apply widgetCallback_run).
  split; [apply Hcb|].
  split; [reflexivity|].
  split.
  { simpl. unfold bind. rewrite Hcb. reflexivity. }
  split.
  { unfold widgetAdjust. fold first. intros H1. rewrite H1. reflexivity. }
  split.
  { unfold widgetAdjust. fold first. fold last.
    intros H1 H2. rewrite H1, H2. reflexivity. }
  split.
  { unfold widgetAdjust. fold first. fold last.
    intros H1 H2. rewrite H1, H2. reflexivity. }
  split.
  { intros H1. unfold eval. simpl. unfold bind. rewrite Hcb. simpl.
    unfold widgetAdjust. fold first. rewrite H1. reflexivity. }
  intros e top height start final.
  assert (Hfinal : final = afterWidgets e (getInlineWidgets e) (initialVars e direction)).
  { unfold final, eval, th. rewrite forEach_widgets. reflexivity. }
  split.
  { unfold exec. rewrite scrollLine_run. cbn [snd].
    unfold visibleRange. fold e. rewrite <- Hfinal. reflexivity. }
  split.
  { intros Hnone. unfold final. rewrite Hnone. reflexivity. }
  intros Hone Habove. unfold final, eval. rewrite Hone. simpl. unfold bind.
  rewrite Hcb. simpl. unfold widgetAdjust. rewrite Habove. split; reflexivity.
Qed.

(** C3, as the code has it: [_scrollLine] ends with a call of
    [setScrollPos] whose horizontal offset is the left offset read at the
    start and whose vertical offset is the clamped scroll top plus
    [textHeight * direction].  The clamped scroll top is the actual one
    unless the editor is scrolled above the top padding and the direction is
    down; then it is the padding offset. *)
Theorem scrollLine_final_position (direction : num) (p : Page E) :
  let e := editor p in
  let top := ScrollInfo.top (getScrollInfo e) in
  let above := (top < lineSpaceOffsetTop e) && (direction > zero) in
  exec (_scrollLine direction) p
  = mkPage (head p)
      (setScrollPos (ScrollInfo.left (getScrollInfo e))
         (clampedScrollTop e direction + getTextHeight e * direction)
         (cursorStep direction (visibleRange e direction) e))
  /\ (above = false ->
      clampedScrollTop e direction + getTextHeight e * direction
      = originalTopPlusLine e direction)
  /\ (above = true ->
      clampedScrollTop e direction + getTextHeight e * direction
      = lineSpaceOffsetTop e + getTextHeight e * direction).
Proof.
  intros e top above.
  split.
  { unfold exec. rewrite scrollLine_run. reflexivity. }
  unfold clampedScrollTop, originalTopPlusLine. fold e. fold top. fold above.
  split; intros Ha; rewrite Ha; reflexivity.
Qed.

(** C4: [_scrollLine] adjusts the cursor only without a selection.  Moving
    down with the cursor line strictly above the first visible line puts the
    cursor on line [first + 1], moving up with the cursor line strictly
    below the last visible line puts it on line [last - 1], both with the
    same character offset; with the cursor line equal to [first] (moving
    down) or [last] (moving up) the editor's own one-line motion is used;
    in every other case, and always with a selection, the only command the
    editor receives is the final [setScrollPos]. *)
Theorem scrollLine_cursor (direction : num) (p : Page E) :
  let e := editor p in
  let r := visibleRange e direction in
  let c := getCursorPos e in
  let first := LinesInView.first r in
  let last := LinesInView.last r in
  let scrolled := fun e' : E => mkPage (head p) (scrollStep direction e e') in
  (hasSelection e = true -> exec (_scrollLine direction) p = scrolled e)
  /\ (hasSelection e = false ->
      (direction > zero) = true -> (Pos.line c < first) = true ->
      exec (_scrollLine direction) p
      = scrolled (setCursorPos (Pos.make (first + one) (Pos.ch c)) e))
  /\ (hasSelection e = false ->
      (direction < zero) = true -> (Pos.line c > last) = true ->
      exec (_scrollLine direction) p
      = scrolled (setCursorPos (Pos.make (last - one) (Pos.ch c)) e))
  /\ (hasSelection e = false ->
      ((direction > zero) && (Pos.line c === first)
       || (direction < zero) && (Pos.line c === last)) = true ->
      exec (_scrollLine direction) p = scrolled (moveV direction "line" e))
  /\ (hasSelection e = false ->
      ((direction > zero) && (Pos.line c < first)) = false ->
      ((direction < zero) && (Pos.line c > last)) = false ->
      ((direction > zero) && (Pos.line c === first)
       || (direction < zero) && (Pos.line c === last)) = false ->
      exec (_scrollLine direction) p = scrolled e).
Proof.
  intros e r c first last scrolled.
  unfold exec. rewrite scrollLine_run. cbn [snd].
  unfold scrolled, cursorStep. fold e. fold r. fold c. fold first. fold last.
  repeat split.
  - intros Hs. rewrite Hs. reflexivity.
  - intros Hs Hd Hl. rewrite Hs, Hd, Hl. reflexivity.
  - intros Hs Hd Hl.
    assert (Hg : (direction > zero) = false) by (apply lt_asym; exact Hd).
    rewrite Hs, Hg, Hd, Hl. reflexivity.
  - intros Hs Hc. rewrite Hs. cbn [negb].
    apply orb_true_iff in Hc.
    destruct Hc as [Hc|Hc]; apply andb_true_iff in Hc; destruct Hc as [Hd He].
    + assert (Hu : (direction < zero) = false) by (apply lt_asym; exact Hd).
      rewrite Hd, He, Hu, (seq_not_lt _ _ He). reflexivity.
    + assert (Hg : (direction > zero) = false) by (apply lt_asym; exact Hd).
      assert (Hl : (Pos.line c > last) = false) by (apply seq_not_gt; exact He).
      rewrite Hd, He, Hg, Hl. reflexivity.
  - intros Hs H1 H2 H3. rewrite Hs, H1, H2, H3. reflexivity.
Qed.

End ScrollLine.

(** A widget of height 30 at line 2, above the visible lines 5 to 14: the
    scroll top used for the range drops from 60 to 30, the range becomes the
    lines 2 to 11, and the cursor on line 4, which would be moved to line 6
    without the widget, is inside the range and stays. *)
Lemma widgets_adjust_in_order_witness :
  Vars.scrollTop
    (eval (forEach [Examples.widgetAbove]
             (@widgetCallback _ Examples.base (of_Z 10))
             (@initialVars _ Examples.base (editor Examples.withWidget) one))
       Examples.withWidget)
  = of_Z 30
  /\ Vars.scrollTop
       (eval (forEach []
                (@widgetCallback _ Examples.base (of_Z 10))
                (@initialVars _ Examples.base (editor Examples.withWidget) one))
          Examples.withWidget)
     = of_Z 60
  /\ exec (@_scrollLine _ Examples.base one) Examples.withWidget
     = mkPage [] (Mock.scrollTo zero (of_Z 70) (editor Examples.withWidget))
  /\ Vars.linesInView
       (eval (forEach (getInlineWidgets (Host := Examples.base)
                         (editor Examples.withWidget))
                (@widgetCallback _ Examples.base (of_Z 10))
                (@initialVars _ Examples.base (editor Examples.withWidget) one))
          Examples.withWidget)
     = LinesInView.make (of_Z 2) (of_Z 11).
Proof.
  pose proof (@widgets_adjust_in_order _ Examples.base Examples.widgetAbove []
                (@initialVars _ Examples.base (editor Examples.withWidget) one)
                Examples.withWidget one) as Hw.
  cbv zeta in Hw.
  destruct Hw as (_ & _ & _ & _ & _ & _ & Habove & Hscroll & _ & Hone).
  split.
  - etransitivity; [apply Habove; reflexivity|reflexivity].
  - split; [reflexivity|]. split.
    + etransitivity; [exact Hscroll|reflexivity].
    + etransitivity; [apply Hone; reflexivity|reflexivity].
Defined.

(** Scrolling down from the very top of a document with a top padding of 4
    and lines of 10: the final call scrolls to 4 + 10. *)
Lemma scrollLine_final_position_witness :
  exec (@_scrollLine _ Examples.base one) Examples.aboveContent
  = mkPage []
      (Mock.scrollTo zero (of_Z 14)
         (Mock.lineMotion one "line" (editor Examples.aboveContent)))
  /\ js_add (@clampedScrollTop _ Examples.base (editor Examples.aboveContent) one)
            (js_mul (of_Z 10) one)
     = js_add (of_Z 4) (js_mul (of_Z 10) one).
Proof.
  pose proof (@scrollLine_final_position _ Examples.base one
                Examples.aboveContent) as Hw.
  cbv zeta in Hw.
  destruct Hw as (Hrun & _ & Habove).
  split.
  - etransitivity; [exact Hrun|reflexivity].
  - apply Habove. reflexivity.
Defined.

(** C3 as stated fails: scrolled to 0 above a top padding of 4, scrolling
    down by a line of 10 sets the vertical offset 14, not the original
    scroll top plus one line, which is 10. *)
Lemma scrollLine_not_original_top :
  getScrollPos (Host := Examples.base)
    (editor (exec (@_scrollLine _ Examples.base one) Examples.aboveContent))
  = ScrollPos.make zero (of_Z 14)
  /\ @originalTopPlusLine _ Examples.base (editor Examples.aboveContent) one
     = of_Z 10
  /\ ScrollPos.y
       (getScrollPos (Host := Examples.base)
          (editor (exec (@_scrollLine _ Examples.base one) Examples.aboveContent)))
     <> @originalTopPlusLine _ Examples.base (editor Examples.aboveContent) one.
Proof.
  split; [reflexivity|].
  split; [reflexivity|].
  vm_compute. discriminate.
Qed.

(** The cursor on line 4, the lines 5 to 14 visible, no selection: scrolling
    down puts the cursor on line 6 and scrolls from 60 to 70.  With a
    selection the cursor stays and the editor only scrolls. *)
Lemma scrollLine_cursor_witness :
  exec (@_scrollLine _ Examples.base one) Examples.cursorAbove
  = mkPage []
      (Mock.scrollTo zero (of_Z 70)
         (Mock.cursorTo (Pos.make (of_Z 6) zero) (editor Examples.cursorAbove)))
  /\ exec (@_scrollLine _ Examples.base one) Examples.selecting
     = mkPage [] (Mock.scrollTo zero (of_Z 70) (editor Examples.selecting)).
Proof.
  pose proof (@scrollLine_cursor _ Examples.base one Examples.cursorAbove) as Hw.
  pose proof (@scrollLine_cursor _ Examples.base one Examples.selecting) as Hs.
  cbv zeta in Hw, Hs.
  destruct Hw as (_ & Hdown & _).
  destruct Hs as (Hsel & _).
  split.
  - etransitivity; [apply Hdown; reflexivity|reflexivity].
  - etransitivity; [apply Hsel; reflexivity|reflexivity].
Defined.

(* ================================================================= *)
(** ** The elements of the document head *)

Module HeadFacts.

Lemma count_id_app (i : string) (h h' : list Element.t) :
  count_id i (h ++ h') = (count_id i h + count_id i h')%nat.
Proof.
  induction h as [|el h IH]; simpl; [reflexivity|].
  rewrite IH. lia.
Qed.

(** Removal takes one matching element away, if there is one. *)
Lemma count_id_remove (i : string) (h : list Element.t) :
  count_id i (remove_by_id i h) = Nat.pred (count_id i h).
Proof.
  induction h as [|el h IH]; simpl; [reflexivity|].
  destruct (Element.id el =? i) eqn:Ei; simpl.
  - reflexivity.
  - rewrite Ei. exact IH.
Qed.

Lemma remove_by_id_absent (i : string) (h : list Element.t) :
  count_id i h = 0%nat -> remove_by_id i h = h.
Proof.
  induction h as [|el h IH]; simpl; [reflexivity|].
  destruct (Element.id el =? i); simpl; [discriminate|].
  intros Hc. rewrite IH by exact Hc. reflexivity.
Qed.

Lemma remove_by_id_last (i : string) (h : list Element.t) (el : Element.t) :
  count_id i h = 0%nat -> Element.id el = i -> remove_by_id i (h ++ [el]) = h.
Proof.
  intros Hc Hi. induction h as [|el' h IH]; simpl in *.
  - rewrite Hi, String.eqb_refl. reflexivity.
  - destruct (Element.id el' =? i); simpl in *; [discriminate|].
    rewrite IH by exact Hc. reflexivity.
Qed.

Lemma In_remove_by_id (i : string) (h : list Element.t) (el : Element.t) :
  In el (remove_by_id i h) -> In el h.
Proof.
  induction h as [|el' h IH]; simpl; [tauto|].
  destruct (Element.id el' =? i); simpl; [tauto|].
  intros [He|Hin]; [left; exact He|right; apply IH; exact Hin].
Qed.

End HeadFacts.

(* ================================================================= *)
(** ** Sequences of commands *)

Section Sequences.

Context {E : Type} `{Host E}.

Local Open Scope list_scope.

Lemma exec_bind (A : Type) (m : M E A) (k : M E unit) (p : Page E) :
  exec (m ;;; k) p = exec k (exec m p).
Proof. unfold exec, bind. destruct (m p). reflexivity. Qed.

Lemma exec_execute_cons (c : Command) (cs : list Command) (p : Page E) :
  exec (execute (c :: cs)) p = exec (execute cs) (exec (registered c) p).
Proof. apply exec_bind. Qed.

Lemma exec_execute_app (cs cs' : list Command) (p : Page E) :
  exec (execute (cs ++ cs')) p = exec (execute cs') (exec (execute cs) p).
Proof.
  revert p. induction cs as [|c cs IH]; intros p; [reflexivity|].
  rewrite <- app_comm_cons, !exec_execute_cons. apply IH.
Qed.

Lemma exec_times_S (n : nat) (m : M E unit) (p : Page E) :
  exec (times (S n) m) p = exec (times n m) (exec m p).
Proof. apply exec_bind. Qed.

Lemma scrollLine_head (direction : num) (p : Page E) :
  head (exec (_scrollLine direction) p) = head p.
Proof. unfold exec. rewrite scrollLine_run. reflexivity. Qed.

(** What a command does to the document head: nothing, or it removes the
    dynamic rule, or it removes it and appends a new one. *)
Lemma registered_head (c : Command) (p : Page E) :
  head (exec (registered c) p) = head p
  \/ head (exec (registered c) p) = remove_by_id DYNAMIC_FONT_STYLE_ID (head p)
  \/ exists el, Element.id el = DYNAMIC_FONT_STYLE_ID
                /\ head (exec (registered c) p)
                   = remove_by_id DYNAMIC_FONT_STYLE_ID (head p) ++ [el].
Proof.
  assert (Hadj : forall d,
             head (exec (_adjustFontSize d) p) = head p
             \/ head (exec (_adjustFontSize d) p)
                = remove_by_id DYNAMIC_FONT_STYLE_ID (head p)
             \/ exists el, Element.id el = DYNAMIC_FONT_STYLE_ID
                           /\ head (exec (_adjustFontSize d) p)
                              = remove_by_id DYNAMIC_FONT_STYLE_ID (head p) ++ [el]).
  { intros d. destruct (adjustFontSize_cases d p) as [Hsame|(_ & _ & Hrun)].
    - left. rewrite Hsame. reflexivity.
    - right. right. exists (newRule (head p) d). rewrite Hrun. split; reflexivity. }
  destruct c; simpl.
  - apply Hadj.
  - apply Hadj.
  - right. left. reflexivity.
  - left. apply scrollLine_head.
  - left. apply scrollLine_head.
Qed.

End Sequences.

(* ================================================================= *)
(** ** The scroll correction of the font-size adjuster *)

Section ScrollCorrection.

Context {E : Type} `{Host E}.

Local Open Scope js_scope.

Import JSFacts.

Lemma Qfloor_half (k : Z) : Qfloor (inject_Z k + (1 # 2)) = k.
Proof.
  pose proof (Qfloor_le (inject_Z k + (1 # 2))) as Hle.
  pose proof (Qfloor_resp_le (inject_Z k) (inject_Z k + (1 # 2))) as Hge.
  rewrite Qfloor_Z in Hge.
  assert (Hlt : (Qfloor (inject_Z k + (1 # 2)) < k + 1)%Z).
  { rewrite Zlt_Qlt, inject_Z_plus. change (inject_Z 1) with 1%Q. lra. }
  assert (k <= Qfloor (inject_Z k + (1 # 2)))%Z by (apply Hge; lra).
  lia.
Qed.

(** On whole numbers: an offset at the top of line [k] of lines of height
    [L] moves by [k] steps. *)
Lemma rescaled_whole (k L d : Z) :
  L <> 0%Z ->
  of_Z (k * L) + Math_round (of_Z (k * L) / of_Z L) * of_Z d = of_Z (k * (L + d)).
Proof.
  intros HL.
  assert (HLq : ~ (inject_Z L == 0)%Q).
  { intros Hq. apply HL. unfold Qeq in Hq. simpl in Hq. lia. }
  unfold of_Z at 2 3. rewrite div_Fin by exact HLq. unfold Math_round.
  rewrite (Qfloor_comp (Qred (inject_Z (k * L) / inject_Z L) + (1 # 2))
             (inject_Z k + (1 # 2))).
  - rewrite Qfloor_half, mul_of_Z, add_of_Z. f_equal. lia.
  - rewrite Qred_correct, inject_Z_mult. field. exact HLq.
Qed.

(** C5: when the font size and the line height are in pixels,
    [_adjustFontSize] reads the scroll position after the refresh, takes
    for each offset the number of lines of the old height above it,
    [round(offset / old line height)], moves the offset by one line-height
    step for each of them in the direction of the change, and applies the
    result with [setScrollPos]; an offset at the top of line [k] under the
    old line height is thereby at the top of line [k] under the new one
    (for whole pixel metrics).  When the font size is in em it sets no
    scroll position at all.  After the validation the unit is one of the
    two. *)
Theorem adjustFontSize_scroll_correction (direction : num) (p : Page E) :
  stylesValid (head p) = true ->
  tooSmall direction (unitsOf (css (head p) "font-size"))
    (newFontSize (head p) direction) = false ->
  let h' := (remove_by_id DYNAMIC_FONT_STYLE_ID (head p)
             ++ [newRule (head p) direction])%list in
  let e1 := refreshAll h' (editor p) in
  let lhOld := valueOf (css (head p) "line-height") in
  let pos := getScrollPos e1 in
  (unitsOf (css (head p) "font-size") = "px" ->
   unitsOf (css (head p) "line-height") = "px" ->
   exec (_adjustFontSize direction) p
   = mkPage h'
       (setScrollPos
          (ScrollPos.x pos + Math_round (ScrollPos.x pos / lhOld) * direction)
          (ScrollPos.y pos + Math_round (ScrollPos.y pos / lhOld) * direction)
          e1))
  /\ (unitsOf (css (head p) "font-size") = "em" ->
      exec (_adjustFontSize direction) p = mkPage h' e1)
  /\ (forall k L : Z,
        unitsOf (css (head p) "line-height") = "px" ->
        lhOld = of_Z L -> (0 < L)%Z -> small L -> small k ->
        direction = one \/ direction = minus_one ->
        ScrollPos.y pos = of_Z (k * L) ->
        ScrollPos.y pos + Math_round (ScrollPos.y pos / lhOld) * direction
        = of_Z k * newLineHeight (head p) direction)
  /\ (unitsOf (css (head p) "font-size") = "px"
      \/ unitsOf (css (head p) "font-size") = "em").
Proof.
  intros Hv Hs h' e1 lhOld pos.
  unfold exec. rewrite adjustFontSize_run by assumption. cbn [snd].
  fold h'. unfold refreshedAndScrolled. fold e1. fold lhOld. fold pos.
  split; [intros Hu _; rewrite Hu; reflexivity|].
  split; [intros Hu; rewrite Hu; reflexivity|].
  split.
  - intros k L Hlu HL Hpos _ _ Hd Hy.
    unfold newLineHeight. fold lhOld. rewrite Hlu, HL, Hy.
    destruct Hd as [Hd|Hd]; subst direction.
    + change one with (of_Z 1) at 1.
      rewrite (@rescaled_whole k L 1) by lia.
      change (stepOf "px" one) with (of_Z 1).
      rewrite add_of_Z, mul_of_Z. reflexivity.
    + change minus_one with (of_Z (-1)) at 1.
      rewrite (@rescaled_whole k L (-1)) by lia.
      change (stepOf "px" minus_one) with (of_Z 1 * of_Z (-1)).
      rewrite mul_of_Z, add_of_Z, mul_of_Z. reflexivity.
  - apply validFont_units. unfold stylesValid in Hv.
    apply andb_true_iff in Hv. apply Hv.
Qed.

End ScrollCorrection.

(** Growing 13 pixel text on 10 pixel lines at scroll offset 100: the ten
    lines above the viewport grow by a pixel each and the editor scrolls to
    110, ten lines of 11 pixels.  Text sized in em is refreshed but not
    scrolled. *)
Lemma adjustFontSize_scroll_correction_witness :
  exec (@_adjustFontSize _ Examples.tenPixelLines one) Examples.scrolled
  = mkPage [fontStyle "14px" "11px"]
      (Mock.scrollTo zero (of_Z 110)
         (Mock.log Mock.RefreshAll (editor Examples.scrolled)))
  /\ js_add (of_Z 100) (js_mul (Math_round (js_div (of_Z 100) (of_Z 10))) one)
     = js_mul (of_Z 10) (of_Z 11)
  /\ exec (@_adjustFontSize _ Examples.relative one) Examples.scrolled
     = mkPage [fontStyle "1.3em" "1.6em"]
         (Mock.log Mock.RefreshAll (editor Examples.scrolled)).
Proof.
  assert (Hpx : @stylesValid _ Examples.tenPixelLines (head Examples.scrolled) = true)
    by reflexivity.
  assert (Hem : @stylesValid _ Examples.relative (head Examples.scrolled) = true)
    by reflexivity.
  pose proof (@adjustFontSize_scroll_correction _ Examples.tenPixelLines one
                Examples.scrolled Hpx eq_refl) as Hw.
  pose proof (@adjustFontSize_scroll_correction _ Examples.relative one
                Examples.scrolled Hem eq_refl) as Hr.
  cbv zeta in Hw, Hr.
  destruct Hw as (Hw & _ & Hline & _). destruct Hr as (_ & Hr & _).
  split; [etransitivity; [apply Hw; reflexivity|reflexivity]|].
  split.
  - apply (Hline 10%Z 10%Z); try reflexivity.
    + unfold small. simpl. lia.
    + unfold small. simpl. lia.
    + left. reflexivity.
  - etransitivity; [apply Hr; reflexivity|reflexivity].
Defined.

(* ================================================================= *)
(** ** The font size *)

Section FontSize.

Context {E : Type} `{Host E}.

Local Open Scope js_scope.
Local Open Scope list_scope.

Import JSFacts HeadFacts.

Lemma sizeAllowed_px (q : Q) : sizeAllowed "px" (Fin q) = true <-> (1 < q)%Q.
Proof.
  unfold sizeAllowed. simpl (("px" =? "px")%string). simpl (("px" =? "em")%string).
  rewrite andb_true_l, andb_false_l, orb_false_r, negb_true_iff.
  apply (le_Fin_false q 1).
Qed.

Lemma sizeAllowed_em (q : Q) : sizeAllowed "em" (Fin q) = true <-> (1 # 10 < q)%Q.
Proof.
  unfold sizeAllowed. simpl (("em" =? "px")%string). simpl (("em" =? "em")%string).
  rewrite andb_true_l, andb_false_l, orb_false_l, negb_true_iff.
  apply (le_Fin_false q (1 # 10)).
Qed.

(** Growing is never refused. *)
Lemma tooSmall_up (units : string) (size : num) : tooSmall one units size = false.
Proof. reflexivity. Qed.

Lemma tooSmall_down (units : string) (size : num) :
  tooSmall minus_one units size = negb (sizeAllowed units size).
Proof. unfold tooSmall, sizeAllowed. rewrite negb_involutive. reflexivity. Qed.

Lemma newFontSize_px (h : list Element.t) (g : Q) (direction : num) (step : Q) :
  fontSizePx h g ->
  stepOf "px" direction = Fin step ->
  exists r : Q, newFontSize h direction = Fin r /\ (r == g + step)%Q.
Proof.
  intros (_ & Hu & Hval) Hstep. unfold newFontSize. rewrite Hu, Hstep.
  destruct (valueOf (css h "font-size")) as [x| | |]; simpl in Hval;
    try discriminate.
  apply Qeq_bool_eq in Hval.
  exists (Qred (x + step)). split; [reflexivity|].
  rewrite Qred_correct, Hval. reflexivity.
Qed.

Lemma overridePx_eq (h : list Element.t) (a b : Q) :
  (a == b)%Q -> overridePx h a -> overridePx h b.
Proof.
  intros Hab (h0 & lhStr & Hh). exists h0, lhStr.
  rewrite Hh, (toString_Fin_eq Hab). reflexivity.
Qed.

Lemma le_Fin_eq (a b c : Q) :
  (a == b)%Q -> (Fin a <= Fin c) = (Fin b <= Fin c).
Proof.
  intros Hab.
  destruct (Fin a <= Fin c) eqn:Ea, (Fin b <= Fin c) eqn:Eb; try reflexivity.
  - apply le_Fin in Ea. apply le_Fin_false in Eb. lra.
  - apply le_Fin_false in Ea. apply le_Fin in Eb. lra.
Qed.

(** The guard looks at the value of the size only. *)
Lemma tooSmall_eq (direction : num) (units : string) (a b : Q) :
  (a == b)%Q -> tooSmall direction units (Fin a) = tooSmall direction units (Fin b).
Proof.
  intros Hab. unfold tooSmall, one, tenth, of_Z.
  rewrite (le_Fin_eq (inject_Z 1) Hab), (le_Fin_eq (1 # 10) Hab). reflexivity.
Qed.

(** One step on a pixel font size [g] installs the rule of [g + step],
    unless the guard refuses it. *)
Lemma adjustFontSize_px (p : Page E) (g : Q) (direction : num) (step : Q) :
  fontSizePx (head p) g ->
  stepOf "px" direction = Fin step ->
  tooSmall direction "px" (Fin (g + step)) = false ->
  overridePx (head (exec (_adjustFontSize direction) p)) (g + step).
Proof.
  intros Hpx Hstep Hsmall.
  destruct (newFontSize_px direction Hpx Hstep) as (r & Hr & Hv).
  destruct Hpx as (Hvalid & Hu & Hval).
  assert (Hs : tooSmall direction (unitsOf (css (head p) "font-size"))
                 (newFontSize (head p) direction) = false).
  { rewrite Hu, Hr, (tooSmall_eq direction "px" Hv). exact Hsmall. }
  unfold exec. rewrite adjustFontSize_run by assumption. simpl.
  exists (remove_by_id DYNAMIC_FONT_STYLE_ID (head p)).
  eexists. unfold newRule. rewrite Hu, Hr, (toString_Fin_eq Hv). reflexivity.
Qed.

End FontSize.

Section FontSizeClaims.

Context {E : Type} `{Host E}.

Local Open Scope js_scope.
Local Open Scope list_scope.

Import JSFacts HeadFacts.

Lemma exec_execute_two (c1 c2 : Command) (p : Page E) :
  exec (execute [c1; c2]) p = exec (registered c2) (exec (registered c1) p).
Proof. rewrite !exec_execute_cons. reflexivity. Qed.


(** Every rule [_adjustFontSize] installs when shrinking is one the guard
    allowed. *)
Lemma decrease_installs_allowed (p : Page E) (el : Element.t) :
  In el (head (exec _handleDecreaseFontSize p)) -> In el (head p) \/ allowedRule el.
Proof.
  unfold _handleDecreaseFontSize.
  destruct (adjustFontSize_cases minus_one p) as [Hsame|(Hv & Hs & Hrun)].
  - rewrite Hsame. tauto.
  - rewrite Hrun. simpl. intros Hin. apply in_app_or in Hin.
    destruct Hin as [Hin|[Hin|[]]].
    + left. apply In_remove_by_id in Hin. exact Hin.
    + right. subst el. unfold newRule.
      eexists _, _, _. split; [reflexivity|]. split.
      * apply validFont_units. unfold stylesValid in Hv.
        apply andb_true_iff in Hv. apply Hv.
      * rewrite tooSmall_down in Hs. apply negb_false_iff in Hs. exact Hs.
Qed.

(** C7: shrinking again and again never installs a font size of at most 1
    pixel, or of at most 0.1 em.  The call whose new size would be at or
    below the threshold returns the page exactly as it found it: the
    override is not removed, no rule is installed, the editor is neither
    refreshed nor scrolled.  After any number of calls, a rule of the head
    was there before or is a rule in pixels or em with a size the guard
    allows, which for pixels means greater than 1 and for em greater than
    0.1. *)
Theorem decrease_never_too_small (n : nat) (p : Page E) :
  (stylesValid (head p) = true ->
   tooSmall minus_one (unitsOf (css (head p) "font-size"))
     (newFontSize (head p) minus_one) = true ->
   _adjustFontSize minus_one p = (tt, p))
  /\ (forall el : Element.t,
        In el (head (exec (times n _handleDecreaseFontSize) p)) ->
        In el (head p) \/ allowedRule el)
  /\ (forall q : Q, sizeAllowed "px" (Fin q) = true <-> (1 < q)%Q)
  /\ (forall q : Q, sizeAllowed "em" (Fin q) = true <-> (1 # 10 < q)%Q).
Proof.
  split; [apply adjustFontSize_small|].
  split; [|split; [apply sizeAllowed_px|apply sizeAllowed_em]].
  revert p. induction n as [|n IH]; intros p el Hin.
  - left. exact Hin.
  - rewrite exec_times_S in Hin.
    destruct (IH _ _ Hin) as [Hold|Hnew]; [|right; exact Hnew].
    apply decrease_installs_allowed. exact Hold.
Qed.

(** C8: if the computed font size or the computed line height does not
    match [<number>(px|em)], [_adjustFontSize] returns for every direction
    with the page exactly as it found it: no rule is removed or installed,
    the editor is neither refreshed nor scrolled. *)
Theorem adjustFontSize_unsupported_units (direction : num) (p : Page E) :
  validFont (css (head p) "font-size") = false
  \/ validFont (css (head p) "line-height") = false ->
  _adjustFontSize direction p = (tt, p).
Proof.
  intros Hbad. apply adjustFontSize_invalid. unfold stylesValid.
  destruct Hbad as [Hbad|Hbad]; rewrite Hbad;
    [reflexivity|apply andb_false_r].
Qed.

End FontSizeClaims.



(** At 2 pixels the next size would be 1: the call changes nothing.  From 3
    pixels, three calls install the rule of 2 pixels and nothing smaller. *)
Lemma decrease_never_too_small_witness :
  @_adjustFontSize _ Examples.twoPixels minus_one Examples.scrolled
  = (tt, Examples.scrolled)
  /\ (In (fontStyle "2px" "14px") (head Examples.scrolled)
      \/ allowedRule (fontStyle "2px" "14px")).
Proof.
  destruct (@decrease_never_too_small _ Examples.twoPixels 3 Examples.scrolled)
    as (Hstop & _).
  destruct (@decrease_never_too_small _ (Mock.host "3px" "15px") 3
              Examples.scrolled) as (_ & Hrule & _).
  split.
  - apply Hstop; reflexivity.
  - apply Hrule. left. reflexivity.
Defined.

(** A font size of ["50%"] does not match: nothing happens, in either
    direction. *)
Lemma adjustFontSize_unsupported_units_witness :
  validFont "50%" = false
  /\ @_adjustFontSize _ Examples.percent one Examples.scrolled
     = (tt, Examples.scrolled)
  /\ @_adjustFontSize _ Examples.percent minus_one Examples.scrolled
     = (tt, Examples.scrolled).
Proof.
  split; [reflexivity|].
  split.
  - apply (@adjustFontSize_unsupported_units _ Examples.percent one
             Examples.scrolled). left. reflexivity.
  - apply (@adjustFontSize_unsupported_units _ Examples.percent minus_one
             Examples.scrolled). left. reflexivity.
Defined.

(* ================================================================= *)
(** ** The dynamic font rule is a singleton *)

Section Singleton.

Context {E : Type} `{Host E}.

Local Open Scope js_scope.
Local Open Scope list_scope.

Import HeadFacts.

Lemma count_after_remove (h : list Element.t) :
  (count_id DYNAMIC_FONT_STYLE_ID h <= 1)%nat ->
  count_id DYNAMIC_FONT_STYLE_ID (remove_by_id DYNAMIC_FONT_STYLE_ID h) = 0%nat.
Proof. intros Hc. rewrite count_id_remove. lia. Qed.

Lemma registered_singleton (c : Command) (p : Page E) :
  (count_id DYNAMIC_FONT_STYLE_ID (head p) <= 1)%nat ->
  (count_id DYNAMIC_FONT_STYLE_ID (head (exec (registered c) p)) <= 1)%nat.
Proof.
  intros Hc.
  destruct (registered_head c p) as [Hh|[Hh|(el & Hid & Hh)]]; rewrite Hh.
  - exact Hc.
  - rewrite count_after_remove by exact Hc. lia.
  - rewrite count_id_app, count_after_remove by exact Hc.
    simpl. rewrite Hid. simpl. lia.
Qed.

Lemma execute_singleton (cs : list Command) (p : Page E) :
  (count_id DYNAMIC_FONT_STYLE_ID (head p) <= 1)%nat ->
  (count_id DYNAMIC_FONT_STYLE_ID (head (exec (execute cs) p)) <= 1)%nat.
Proof.
  revert p. induction cs as [|c cs IH]; intros p Hc; [exact Hc|].
  rewrite exec_execute_cons. apply IH, registered_singleton, Hc.
Qed.

(** Starting without a dynamic rule, the head is at every point the initial
    head, possibly followed by one dynamic rule. *)
Lemma execute_head (cs : list Command) (p : Page E) (h0 : list Element.t) :
  count_id DYNAMIC_FONT_STYLE_ID h0 = 0%nat ->
  (head p = h0
   \/ exists el, Element.id el = DYNAMIC_FONT_STYLE_ID /\ head p = h0 ++ [el]) ->
  head (exec (execute cs) p) = h0
  \/ exists el, Element.id el = DYNAMIC_FONT_STYLE_ID
                /\ head (exec (execute cs) p) = h0 ++ [el].
Proof.
  intros H0. revert p. induction cs as [|c cs IH]; intros p Hp; [exact Hp|].
  rewrite exec_execute_cons. apply IH.
  assert (Hrm : remove_by_id DYNAMIC_FONT_STYLE_ID (head p) = h0).
  { destruct Hp as [Hp|(el & Hid & Hp)]; rewrite Hp.
    - apply remove_by_id_absent, H0.
    - apply remove_by_id_last; assumption. }
  destruct (registered_head c p) as [Hh|[Hh|(el & Hid & Hh)]]; rewrite Hh.
  - exact Hp.
  - left. exact Hrm.
  - right. exists el. rewrite Hrm. auto.
Qed.

(** C9: the document head never holds more than one element with the id
    ["codemirror-dynamic-fonts"].  Every command the module registers keeps
    it so; a call of [_adjustFontSize] that installs a rule appends it to
    the head from which the previous rule was removed, which then holds
    exactly one; [_handleRestoreFontSize] leaves none. *)
Theorem single_dynamic_font_rule (cs : list Command) (direction : num) (p : Page E) :
  (count_id DYNAMIC_FONT_STYLE_ID (head p) <= 1)%nat ->
  (count_id DYNAMIC_FONT_STYLE_ID (head (exec (execute cs) p)) <= 1)%nat
  /\ count_id DYNAMIC_FONT_STYLE_ID
       (head (exec (_removeDynamicFontSize false) p)) = 0%nat
  /\ (exec (_adjustFontSize direction) p = p
      \/ (head (exec (_adjustFontSize direction) p)
          = head (exec (_removeDynamicFontSize false) p) ++ [newRule (head p) direction]
          /\ count_id DYNAMIC_FONT_STYLE_ID
               (head (exec (_adjustFontSize direction) p)) = 1%nat))
  /\ count_id DYNAMIC_FONT_STYLE_ID (head (exec _handleRestoreFontSize p)) = 0%nat.
Proof.
  intros Hc.
  split; [apply execute_singleton, Hc|].
  split; [apply count_after_remove, Hc|].
  split; [|apply count_after_remove, Hc].
  destruct (adjustFontSize_cases direction p) as [Hsame|(_ & _ & Hrun)].
  - left. exact Hsame.
  - right. rewrite Hrun. simpl. split; [reflexivity|].
    rewrite count_id_app, count_after_remove by exact Hc. reflexivity.
Qed.

(** C10, as the code has it: [_handleRestoreFontSize] removes the dynamic
    rule and refreshes the editor against the remaining rules, whether or
    not there was a rule to remove.  From a head with at most one dynamic
    rule none is left.  When no override is installed the document head is
    unchanged, but the editor is refreshed all the same.  After any sequence
    of commands on a page that started without an override, restoring gives
    back the initial head, hence the initial computed style. *)
Theorem restoreFontSize_removes_override (cs : list Command) (p : Page E) :
  exec _handleRestoreFontSize p
  = mkPage (remove_by_id DYNAMIC_FONT_STYLE_ID (head p))
      (refreshAll (remove_by_id DYNAMIC_FONT_STYLE_ID (head p)) (editor p))
  /\ ((count_id DYNAMIC_FONT_STYLE_ID (head p) <= 1)%nat ->
      count_id DYNAMIC_FONT_STYLE_ID (head (exec _handleRestoreFontSize p)) = 0%nat)
  /\ (count_id DYNAMIC_FONT_STYLE_ID (head p) = 0%nat ->
      exec _handleRestoreFontSize p
      = mkPage (head p) (refreshAll (head p) (editor p)))
  /\ (count_id DYNAMIC_FONT_STYLE_ID (head p) = 0%nat ->
      head (exec (execute (cs ++ [VIEW_RESTORE_FONT_SIZE])) p) = head p
      /\ forall prop : string,
           css (head (exec (execute (cs ++ [VIEW_RESTORE_FONT_SIZE])) p)) prop
           = css (head p) prop).
Proof.
  split; [reflexivity|].
  split; [apply count_after_remove|].
  split.
  - intros H0. unfold exec. rewrite restoreFontSize_run. simpl.
    rewrite remove_by_id_absent by exact H0. reflexivity.
  - intros H0.
    assert (Hh : head (exec (execute (cs ++ [VIEW_RESTORE_FONT_SIZE])) p) = head p).
    { rewrite exec_execute_app, exec_execute_cons. simpl.
      destruct (execute_head cs p H0 (or_introl eq_refl)) as [Hq|(el & Hid & Hq)];
        rewrite Hq.
      - apply remove_by_id_absent, H0.
      - apply remove_by_id_last; assumption. }
    split; [exact Hh|]. intros prop. rewrite Hh. reflexivity.
Qed.

End Singleton.

(** Five commands on the recording editor, starting with a rule installed:
    one rule at the end, none after a restore. *)
Lemma single_dynamic_font_rule_witness :
  (count_id DYNAMIC_FONT_STYLE_ID
     (head (exec (@execute _ Examples.base
                    [VIEW_INCREASE_FONT_SIZE; VIEW_SCROLL_LINE_DOWN;
                     VIEW_INCREASE_FONT_SIZE; VIEW_DECREASE_FONT_SIZE;
                     VIEW_SCROLL_LINE_UP])
              (mkPage [fontStyle "12px" "14px"] (editor Examples.scrolled))))
   <= 1)%nat
  /\ count_id DYNAMIC_FONT_STYLE_ID
       (head (exec (@_handleRestoreFontSize _ Examples.base)
                (mkPage [fontStyle "12px" "14px"] (editor Examples.scrolled))))
     = 0%nat.
Proof.
  destruct (@single_dynamic_font_rule _ Examples.base
              [VIEW_INCREASE_FONT_SIZE; VIEW_SCROLL_LINE_DOWN;
               VIEW_INCREASE_FONT_SIZE; VIEW_DECREASE_FONT_SIZE;
               VIEW_SCROLL_LINE_UP] one
              (mkPage [fontStyle "12px" "14px"] (editor Examples.scrolled)))
    as (Hall & _ & _ & Hrestore).
  - simpl. apply le_n.
  - split; [exact Hall|exact Hrestore].
Defined.

(** Growing twice and restoring on a page without an override: the head is
    empty again and the computed font size is the base 13 pixels. *)
Lemma restoreFontSize_removes_override_witness :
  head (exec (@execute _ Examples.base
                ([VIEW_INCREASE_FONT_SIZE; VIEW_INCREASE_FONT_SIZE]
                   ++ [VIEW_RESTORE_FONT_SIZE]))
          Examples.scrolled) = []
  /\ css (Host := Examples.base)
       (head (exec (@execute _ Examples.base
                      ([VIEW_INCREASE_FONT_SIZE; VIEW_INCREASE_FONT_SIZE]
                         ++ [VIEW_RESTORE_FONT_SIZE]))
                Examples.scrolled)) "font-size" = "13px"
  /\ count_id DYNAMIC_FONT_STYLE_ID
       (head (exec (@_handleRestoreFontSize _ Examples.base)
                (mkPage [fontStyle "12px" "14px"] (editor Examples.scrolled))))
     = 0%nat
  /\ exec (@_handleRestoreFontSize _ Examples.base) Examples.scrolled
     = mkPage [] (Mock.log Mock.RefreshAll (editor Examples.scrolled)).
Proof.
  destruct (@restoreFontSize_removes_override _ Examples.base
              [VIEW_INCREASE_FONT_SIZE; VIEW_INCREASE_FONT_SIZE]
              Examples.scrolled) as (_ & _ & Hnone & Hseq).
  destruct (@restoreFontSize_removes_override _ Examples.base []
              (mkPage [fontStyle "12px" "14px"] (editor Examples.scrolled)))
    as (_ & Hcount & _).
  destruct (Hseq eq_refl) as (Hhead & Hcss).
  split; [exact Hhead|].
  split; [exact (Hcss "font-size")|].
  split; [apply Hcount; simpl; apply le_n|].
  apply Hnone. reflexivity.
Defined.

(** C10 as stated fails in its last part: with no override installed,
    [_handleRestoreFontSize] is not a no-op; the editor is told to refresh
    its layout. *)
Lemma restoreFontSize_not_noop :
  count_id DYNAMIC_FONT_STYLE_ID (head Examples.scrolled) = 0%nat
  /\ Mock.calls (editor Examples.scrolled) = []
  /\ Mock.calls (editor (exec (@_handleRestoreFontSize _ Examples.base)
                           Examples.scrolled)) = [Mock.RefreshAll]
  /\ exec (@_handleRestoreFontSize _ Examples.base) Examples.scrolled
     <> Examples.scrolled.
Proof.
  split; [reflexivity|].
  split; [reflexivity|].
  split; [reflexivity|].
  vm_compute. discriminate.
Qed.

(* ================================================================= *)
(** ** Further properties of the visible lines *)

Section VisibleLinesMore.

Local Open Scope js_scope.

Import JSFacts.

Lemma Qfloor_unique (x : Q) (m : Z) :
  (inject_Z m <= x)%Q -> (x < inject_Z (m + 1))%Q -> Qfloor x = m.
Proof.
  intros Hlo Hhi.
  pose proof (Qfloor_le x) as Hle. pose proof (Qlt_floor x) as Hlt.
  assert (Qfloor x < m + 1)%Z by (rewrite Zlt_Qlt; lra).
  assert (m < Qfloor x + 1)%Z by (rewrite Zlt_Qlt; lra).
  lia.
Qed.

Lemma Qfloor_shift (x : Q) (n : Z) : Qfloor (x + inject_Z n) = (Qfloor x + n)%Z.
Proof.
  pose proof (Qfloor_le x) as Hle. pose proof (Qlt_floor x) as Hlt.
  apply Qfloor_unique.
  - rewrite inject_Z_plus. lra.
  - replace (Qfloor x + n + 1)%Z with ((Qfloor x + 1) + n)%Z by lia.
    rewrite inject_Z_plus. lra.
Qed.

Lemma Qceiling_shift (x : Q) (n : Z) : Qceiling (x + inject_Z n) = (Qceiling x + n)%Z.
Proof.
  unfold Qceiling.
  rewrite (Qfloor_comp (- (x + inject_Z n)) (- x + inject_Z (- n))).
  - rewrite Qfloor_shift. lia.
  - rewrite inject_Z_opp. ring.
Qed.

Lemma computeVisibleLines_scrolled (h s v : Q) (n : Z) :
  ~ (h == 0)%Q ->
  LinesInView.first (computeVisibleLines (Fin h) (Fin s + Fin h * of_Z n) (Fin v))
  = LinesInView.first (computeVisibleLines (Fin h) (Fin s) (Fin v)) + of_Z n
  /\ LinesInView.last (computeVisibleLines (Fin h) (Fin s + Fin h * of_Z n) (Fin v))
     = LinesInView.last (computeVisibleLines (Fin h) (Fin s) (Fin v)) + of_Z n.
Proof.
  intros Hh.
  replace (Fin s + Fin h * of_Z n)
    with (Fin (Qred (s + Qred (h * inject_Z n)))) by reflexivity.
  rewrite !computeVisibleLines_Fin by assumption.
  cbn [LinesInView.first LinesInView.last].
  rewrite !add_of_Z. split; f_equal.
  - rewrite (Qceiling_comp (Qred (s + Qred (h * inject_Z n)) / h)
               (s / h + inject_Z n)).
    + rewrite Qceiling_shift. lia.
    + rewrite !Qred_correct. field. exact Hh.
  - rewrite (Qfloor_comp ((Qred (s + Qred (h * inject_Z n)) + v) / h)
               ((s + v) / h + inject_Z n)).
    + rewrite Qfloor_shift. lia.
    + rewrite !Qred_correct. field. exact Hh.
Qed.

Lemma computeVisibleLines_span (h s v : Q) :
  (0 < h)%Q ->
  exists f l : Z,
    computeVisibleLines (Fin h) (Fin s) (Fin v) = LinesInView.make (of_Z f) (of_Z l)
    /\ (inject_Z (l - f + 1) * h <= v)%Q
    /\ (v < inject_Z (l - f + 3) * h)%Q.
Proof.
  intros Hh.
  destruct (computeVisibleLines_bounds s v Hh) as (f & l & Hr & H1 & H2 & H3 & H4).
  exists f, l. split; [exact Hr|].
  assert (Ha : (inject_Z (l - f + 1) == inject_Z l - inject_Z f + 1)%Q).
  { unfold Z.sub. rewrite !inject_Z_plus, inject_Z_opp. reflexivity. }
  assert (Hb : (inject_Z (l - f + 3) == inject_Z l - inject_Z f + 3)%Q).
  { unfold Z.sub. rewrite !inject_Z_plus, inject_Z_opp. reflexivity. }
  rewrite Ha, Hb.
  set (F := inject_Z f) in *. set (L := inject_Z l) in *.
  split.
  - assert ((L - F + 1) * h == (L + 2) * h - (F + 1) * h)%Q by ring. lra.
  - assert ((L - F + 3) * h == (L + 3) * h - F * h)%Q by ring. lra.
Qed.

End VisibleLinesMore.

Section VisibleLinesOfEditor.

Context {E : Type} `{Host E}.

Local Open Scope js_scope.

Lemma inject_Z_nonzero (z : Z) : z <> 0%Z -> ~ (inject_Z z == 0)%Q.
Proof. intros Hz Hq. apply Hz. unfold Qeq in Hq. simpl in Hq. lia. Qed.

(** With whole pixel metrics, scrolling by [n] whole text heights moves
    both ends of the range by exactly [n] lines. *)
Theorem getLinesInView_scrolled (p : Page E) (h s v n : Z) :
  getTextHeight (editor p) = of_Z h -> h <> 0%Z ->
  small h -> small s -> small v -> small n ->
  LinesInView.first (eval (_getLinesInView (of_Z s + of_Z h * of_Z n) (of_Z v)) p)
  = LinesInView.first (eval (_getLinesInView (of_Z s) (of_Z v)) p) + of_Z n
  /\ LinesInView.last (eval (_getLinesInView (of_Z s + of_Z h * of_Z n) (of_Z v)) p)
     = LinesInView.last (eval (_getLinesInView (of_Z s) (of_Z v)) p) + of_Z n.
Proof.
  intros Hth Hh _ _ _ _. unfold eval. rewrite !getLinesInView_run, Hth. cbn [fst].
  apply (computeVisibleLines_scrolled (inject_Z s) (inject_Z v) n
           (inject_Z_nonzero Hh)).
Qed.

Lemma whole_bounds (h s v : Z) :
  (0 < h)%Z ->
  exists f l : Z,
    computeVisibleLines (of_Z h) (of_Z s) (of_Z v) = LinesInView.make (of_Z f) (of_Z l)
    /\ (f * h < s)%Z /\ (s <= (f + 1) * h)%Z
    /\ ((l + 2) * h <= s + v)%Z /\ (s + v < (l + 3) * h)%Z.
Proof.
  intros Hh.
  assert (Hq : (0 < inject_Z h)%Q) by (change 0%Q with (inject_Z 0); rewrite <- Zlt_Qlt; exact Hh).
  destruct (computeVisibleLines_bounds (inject_Z s) (inject_Z v) Hq)
    as (f & l & Hr & H1 & H2 & H3 & H4).
  exists f, l. split; [exact Hr|].
  change 1%Q with (inject_Z 1) in H2.
  change 2%Q with (inject_Z 2) in H3.
  change 3%Q with (inject_Z 3) in H4.
  repeat split; rewrite ?Zlt_Qlt, ?Zle_Qle;
    rewrite ?inject_Z_mult, ?inject_Z_plus; assumption.
Qed.

(** With whole pixel metrics and a positive text height, line [first]
    starts before the scroll offset and ends at or after it, and line
    [last + 2] is the last one that starts at or before the bottom of the
    viewport. *)
Theorem getLinesInView_lines (p : Page E) (h s v : Z) :
  getTextHeight (editor p) = of_Z h -> (0 < h)%Z ->
  small h -> small s -> small v ->
  exists f l : Z,
    eval (_getLinesInView (of_Z s) (of_Z v)) p = LinesInView.make (of_Z f) (of_Z l)
    /\ (f * h < s)%Z /\ (s <= (f + 1) * h)%Z
    /\ ((l + 2) * h <= s + v)%Z /\ (s + v < (l + 3) * h)%Z.
Proof.
  intros Hth Hh _ _ _. unfold eval. rewrite getLinesInView_run, Hth. cbn [fst].
  apply whole_bounds, Hh.
Qed.

(** With whole pixel metrics and a positive text height, the range never
    spans more lines than fit into the viewport: [last - first + 1] text
    heights are at most the viewport height, and two more exceed it. *)
Theorem getLinesInView_span (p : Page E) (h s v : Z) :
  getTextHeight (editor p) = of_Z h -> (0 < h)%Z ->
  small h -> small s -> small v ->
  exists f l : Z,
    eval (_getLinesInView (of_Z s) (of_Z v)) p = LinesInView.make (of_Z f) (of_Z l)
    /\ ((l - f + 1) * h <= v)%Z
    /\ (v < (l - f + 3) * h)%Z.
Proof.
  intros Hth Hh _ _ _. unfold eval. rewrite getLinesInView_run, Hth. cbn [fst].
  destruct (whole_bounds s v Hh) as (f & l & Hr & H1 & H2 & H3 & H4).
  exists f, l. split; [exact Hr|]. split; nia.
Qed.

End VisibleLinesOfEditor.

(** Lines of 10, scrolled to 60 and then one line further. *)
Lemma getLinesInView_scrolled_witness :
  LinesInView.first
    (eval (@_getLinesInView _ Examples.base
             (js_add (of_Z 60) (js_mul (of_Z 10) (of_Z 1))) (of_Z 100))
       Examples.cursorAbove)
  = js_add (LinesInView.first
              (eval (@_getLinesInView _ Examples.base (of_Z 60) (of_Z 100))
                 Examples.cursorAbove)) (of_Z 1)
  /\ LinesInView.last
       (eval (@_getLinesInView _ Examples.base
                (js_add (of_Z 60) (js_mul (of_Z 10) (of_Z 1))) (of_Z 100))
          Examples.cursorAbove)
     = js_add (LinesInView.last
                 (eval (@_getLinesInView _ Examples.base (of_Z 60) (of_Z 100))
                    Examples.cursorAbove)) (of_Z 1).
Proof.
  apply (@getLinesInView_scrolled _ Examples.base Examples.cursorAbove 10 60 100 1);
    try reflexivity; try discriminate; unfold small; simpl; lia.
Defined.

(** Lines of 10 in a viewport of 100, scrolled to 65. *)
Lemma getLinesInView_lines_witness :
  exists f l : Z,
    eval (@_getLinesInView _ Examples.base (of_Z 65) (of_Z 100)) Examples.cursorAbove
    = LinesInView.make (of_Z f) (of_Z l)
    /\ (f * 10 < 65)%Z /\ (65 <= (f + 1) * 10)%Z
    /\ ((l + 2) * 10 <= 65 + 100)%Z /\ (65 + 100 < (l + 3) * 10)%Z.
Proof.
  apply (@getLinesInView_lines _ Examples.base Examples.cursorAbove 10 65 100);
    try reflexivity; unfold small; simpl; lia.
Defined.

Lemma getLinesInView_span_witness :
  exists f l : Z,
    eval (@_getLinesInView _ Examples.base (of_Z 65) (of_Z 100)) Examples.cursorAbove
    = LinesInView.make (of_Z f) (of_Z l)
    /\ ((l - f + 1) * 10 <= 100)%Z
    /\ (100 < (l - f + 3) * 10)%Z.
Proof.
  apply (@getLinesInView_span _ Examples.base Examples.cursorAbove 10 65 100);
    try reflexivity; unfold small; simpl; lia.
Defined.

(* ================================================================= *)
(** ** Further properties of the line scroller *)

Section ScrollLineMore.

Context {E : Type} `{Host E}.

Local Open Scope js_scope.

Import JSFacts.

Lemma widgetAdjust_in_sync (th L Ht : num) (v : Vars.t) :
  Vars.linesInView v
  = computeVisibleLines th (Vars.scrollTop v) (Vars.editorHeight v) ->
  Vars.linesInView (widgetAdjust th L Ht v)
  = computeVisibleLines th (Vars.scrollTop (widgetAdjust th L Ht v))
      (Vars.editorHeight (widgetAdjust th L Ht v)).
Proof.
  intros Hv. unfold widgetAdjust.
  destruct (L < LinesInView.first (Vars.linesInView v)); [reflexivity|].
  destruct (L + Ht / th < LinesInView.last (Vars.linesInView v));
    [reflexivity|exact Hv].
Qed.

Lemma afterWidgets_in_sync (e : E) (ws : list InlineWidget.t) (v : Vars.t) :
  Vars.linesInView v
  = computeVisibleLines (getTextHeight e) (Vars.scrollTop v) (Vars.editorHeight v) ->
  Vars.linesInView (afterWidgets e ws v)
  = computeVisibleLines (getTextHeight e) (Vars.scrollTop (afterWidgets e ws v))
      (Vars.editorHeight (afterWidgets e ws v)).
Proof.
  revert v. induction ws as [|w ws IH]; intros v Hv; [exact Hv|].
  simpl. apply IH, widgetAdjust_in_sync, Hv.
Qed.

(** The loop keeps the range in step with the two variables it is computed
    from: if the range is the one of the scroll top and the viewport height
    before the loop, as [_scrollLine] sets it up, it is the one of their
    values after the loop, however many widgets were visited and whichever
    branch each took. *)
Theorem widget_loop_in_sync (ws : list InlineWidget.t) (v : Vars.t) (p : Page E) :
  let v' := eval (forEach ws (widgetCallback (getTextHeight (editor p))) v) p in
  Vars.linesInView v
  = eval (_getLinesInView (Vars.scrollTop v) (Vars.editorHeight v)) p ->
  Vars.linesInView v'
  = eval (_getLinesInView (Vars.scrollTop v') (Vars.editorHeight v')) p.
Proof.
  unfold eval. rewrite forEach_widgets, !getLinesInView_run. cbn [fst].
  apply afterWidgets_in_sync.
Qed.

Lemma afterWidgets_accounting (e : E) (ws : list InlineWidget.t) (hs : list Z) :
  wholeHeights ws hs ->
  forall (v : Vars.t) (t0 h0 : Z),
    Vars.scrollTop v = of_Z t0 -> Vars.editorHeight v = of_Z h0 ->
    exists t h : Z,
      Vars.scrollTop (afterWidgets e ws v) = of_Z t
      /\ Vars.editorHeight (afterWidgets e ws v) = of_Z h
      /\ (t <= t0)%Z /\ (h <= h0)%Z
      /\ ((t0 - t) + (h0 - h) <= sumZ hs)%Z.
Proof.
  induction 1 as [|w hw ws hs Hw Hws IH]; intros v t0 h0 Ht Hh.
  - exists t0, h0. simpl. repeat split; try assumption; lia.
  - destruct Hw as (Hhw & Hpos).
    simpl afterWidgets. simpl sumZ.
    set (v' := widgetAdjust (getTextHeight e) (_getInlineWidgetLineNumber e w)
                 (InlineWidget.height w) v).
    assert (Hstep : exists t1 h1 : Z,
               Vars.scrollTop v' = of_Z t1 /\ Vars.editorHeight v' = of_Z h1
               /\ (t1 <= t0)%Z /\ (h1 <= h0)%Z /\ ((t0 - t1) + (h0 - h1) <= hw)%Z).
    { unfold v', widgetAdjust. rewrite Hhw.
      destruct (_getInlineWidgetLineNumber e w
                < LinesInView.first (Vars.linesInView v)).
      - cbn [Vars.scrollTop Vars.editorHeight]. rewrite Ht, Hh, sub_of_Z.
        exists (t0 - hw)%Z, h0. repeat split; lia.
      - destruct (_getInlineWidgetLineNumber e w + of_Z hw / getTextHeight e
                  < LinesInView.last (Vars.linesInView v)).
        + cbn [Vars.scrollTop Vars.editorHeight]. rewrite Ht, Hh, sub_of_Z.
          exists t0, (h0 - hw)%Z. repeat split; lia.
        + exists t0, h0. repeat split; try assumption; lia. }
    destruct Hstep as (t1 & h1 & Ht1 & Hh1 & Hle1 & Hle2 & Hsum1).
    destruct (IH v' t1 h1 Ht1 Hh1) as (t & h & Ht' & Hh' & Hle3 & Hle4 & Hsum2).
    exists t, h. repeat split; try assumption; lia.
Qed.

(** With whole pixel metrics (a whole scroll top and viewport height, and
    widget heights that are whole and not negative), the loop only ever
    lowers the scroll top and the viewport height, and it takes each
    widget's height off at most one of the two: together they drop by no
    more than the total height of the widgets. *)
Theorem widgets_counted_once
  (ws : list InlineWidget.t) (hs : list Z) (v : Vars.t) (p : Page E)
  (top0 height0 : Z) :
  let v' := eval (forEach ws (widgetCallback (getTextHeight (editor p))) v) p in
  Vars.scrollTop v = of_Z top0 ->
  Vars.editorHeight v = of_Z height0 ->
  wholeHeights ws hs ->
  small top0 -> small height0 -> small (sumZ hs) ->
  exists t h : Z,
    Vars.scrollTop v' = of_Z t
    /\ Vars.editorHeight v' = of_Z h
    /\ (t <= top0)%Z /\ (h <= height0)%Z
    /\ ((top0 - t) + (height0 - h) <= sumZ hs)%Z.
Proof.
  unfold eval. rewrite forEach_widgets. cbn [fst].
  intros Ht Hh Hws _ _ _.
  apply (afterWidgets_accounting (editor p) Hws v); assumption.
Qed.

(** Scrolling down looks at the first visible line only and scrolling up
    at the last one only: with the cursor strictly below [first] when moving
    down, or strictly above [last] when moving up, the cursor is not touched
    and the editor receives the final [setScrollPos] alone. *)
Theorem scrollLine_cursor_untouched (direction : num) (p : Page E) :
  let e := editor p in
  let r := visibleRange e direction in
  let line := Pos.line (getCursorPos e) in
  ((direction > zero) = true /\ (LinesInView.first r < line) = true)
  \/ ((direction < zero) = true /\ (line < LinesInView.last r) = true) ->
  exec (_scrollLine direction) p = mkPage (head p) (scrollStep direction e e).
Proof.
  intros e r line Hin.
  unfold exec. rewrite scrollLine_run. cbn [snd]. f_equal. f_equal.
  unfold cursorStep. fold e. fold r. fold line.
  destruct (hasSelection e); [reflexivity|]. cbn [negb].
  destruct Hin as [[Hd Hl]|[Hd Hl]].
  - assert (H1 : (line < LinesInView.first r) = false) by (apply lt_asym, Hl).
    assert (H2 : (direction < zero) = false) by (apply lt_asym, Hd).
    assert (H3 : (line === LinesInView.first r) = false).
    { destruct (line === LinesInView.first r) eqn:He; [|reflexivity].
      apply seq_not_gt in He. congruence. }
    rewrite H1, H2, H3, !andb_false_r. reflexivity.
  - assert (H1 : (direction > zero) = false) by (apply lt_asym, Hd).
    assert (H2 : (line > LinesInView.last r) = false) by (apply lt_asym, Hl).
    assert (H3 : (line === LinesInView.last r) = false).
    { destruct (line === LinesInView.last r) eqn:He; [|reflexivity].
      apply seq_not_lt in He. congruence. }
    rewrite H1, H2, H3, !andb_false_r. reflexivity.
Qed.

End ScrollLineMore.

(* ================================================================= *)
(** ** Scrolling there and back *)

Section ThereAndBack.

Context {E : Type} `{Host E}.

Hypothesis laws : ScrollLaws.

Local Open Scope js_scope.

Import JSFacts.

Lemma cursorStep_metrics (direction : num) (r : LinesInView.t) (e : E) :
  getScrollInfo (cursorStep direction r e) = getScrollInfo e
  /\ getTextHeight (cursorStep direction r e) = getTextHeight e
  /\ lineSpaceOffsetTop (cursorStep direction r e) = lineSpaceOffsetTop e.
Proof.
  destruct laws. unfold cursorStep.
  repeat match goal with
         | |- context [if ?c then _ else _] => destruct c
         end; auto.
Qed.

(** What the line scroller reads from the editor after one [_scrollLine]. *)
Lemma scrollLine_metrics (direction : num) (p : Page E) :
  let e := editor p in
  let e' := editor (exec (_scrollLine direction) p) in
  getScrollInfo e'
  = ScrollInfo.make
      (clampedScrollTop e direction + getTextHeight e * direction)
      (ScrollInfo.left (getScrollInfo e))
      (ScrollInfo.clientHeight (getScrollInfo e))
  /\ getTextHeight e' = getTextHeight e
  /\ lineSpaceOffsetTop e' = lineSpaceOffsetTop e.
Proof.
  intros e e'. unfold e', exec. rewrite scrollLine_run. cbn [snd editor].
  fold e. unfold scrollStep.
  destruct (cursorStep_metrics direction (visibleRange e direction) e)
    as (Hs & Ht & Ho).
  destruct laws.
  rewrite scrollInfo_setScrollPos0, textHeight_setScrollPos0,
    offsetTop_setScrollPos0, Hs, Ht, Ho.
  repeat split.
Qed.

(** Where two steps in a row end, in the arithmetic of the code. *)
Lemma down_then_up_top (p : Page E) :
  let e := editor p in
  let e2 := editor (exec (execute [VIEW_SCROLL_LINE_DOWN; VIEW_SCROLL_LINE_UP]) p) in
  ScrollInfo.left (getScrollInfo e2) = ScrollInfo.left (getScrollInfo e)
  /\ ScrollInfo.top (getScrollInfo e2)
     = (clampedScrollTop e one + getTextHeight e * one)
       + getTextHeight e * minus_one.
Proof.
  intros e e2.
  unfold e2. rewrite exec_execute_two. simpl registered.
  unfold _handleScrollLineUp, _handleScrollLineDown.
  destruct (scrollLine_metrics one p) as (Hs1 & Ht1 & _).
  destruct (scrollLine_metrics minus_one (exec (_scrollLine one) p))
    as (Hs2 & _ & _).
  cbv zeta in Hs1, Ht1, Hs2. fold e in Hs1, Ht1.
  rewrite Hs2. cbn [ScrollInfo.left ScrollInfo.top].
  unfold clampedScrollTop at 1.
  replace (minus_one > zero) with false by reflexivity.
  rewrite andb_false_r, Ht1, Hs1. cbn [ScrollInfo.left ScrollInfo.top].
  split; reflexivity.
Qed.

Lemma up_then_down_top (p : Page E) :
  let e := editor p in
  let e2 := editor (exec (execute [VIEW_SCROLL_LINE_UP; VIEW_SCROLL_LINE_DOWN]) p) in
  let mid := ScrollInfo.top (getScrollInfo e) + getTextHeight e * minus_one in
  ScrollInfo.left (getScrollInfo e2) = ScrollInfo.left (getScrollInfo e)
  /\ ScrollInfo.top (getScrollInfo e2)
     = (if mid < lineSpaceOffsetTop e then lineSpaceOffsetTop e else mid)
       + getTextHeight e * one.
Proof.
  intros e e2 mid.
  unfold e2. rewrite exec_execute_two. simpl registered.
  unfold _handleScrollLineUp, _handleScrollLineDown.
  destruct (scrollLine_metrics minus_one p) as (Hs1 & Ht1 & Ho1).
  destruct (scrollLine_metrics one (exec (_scrollLine minus_one) p))
    as (Hs2 & _ & _).
  cbv zeta in Hs1, Ht1, Ho1, Hs2. fold e in Hs1, Ht1, Ho1.
  rewrite Hs2. cbn [ScrollInfo.left ScrollInfo.top]. unfold clampedScrollTop.
  rewrite Ht1, Ho1, Hs1. cbn [ScrollInfo.left ScrollInfo.top].
  unfold clampedScrollTop. fold e.
  replace (minus_one > zero) with false by reflexivity.
  replace (one > zero) with true by reflexivity.
  rewrite andb_false_r, andb_true_r. fold mid.
  split; reflexivity.
Qed.

Lemma lt_of_Z (a b : Z) : (of_Z a < of_Z b) = (a <? b)%Z.
Proof.
  destruct (a <? b)%Z eqn:Hab.
  - apply lt_Fin. rewrite <- Zlt_Qlt. apply Z.ltb_lt, Hab.
  - destruct (of_Z a < of_Z b) eqn:Hlt; [|reflexivity].
    apply lt_Fin in Hlt. rewrite <- Zlt_Qlt in Hlt.
    apply Z.ltb_lt in Hlt. congruence.
Qed.

(** On an editor that scrolls where it is told, with whole pixel metrics:
    one line down and then one line up ends at the original scroll position
    when the editor was not scrolled above the top padding; when it was,
    the pair ends at the padding offset instead. *)
Theorem scroll_down_then_up (p : Page E) (t h pad : Z) :
  let e := editor p in
  let e2 := editor (exec (execute [VIEW_SCROLL_LINE_DOWN; VIEW_SCROLL_LINE_UP]) p) in
  getTextHeight e = of_Z h ->
  ScrollInfo.top (getScrollInfo e) = of_Z t ->
  lineSpaceOffsetTop e = of_Z pad ->
  small h -> small t -> small pad ->
  ScrollInfo.left (getScrollInfo e2) = ScrollInfo.left (getScrollInfo e)
  /\ ((pad <= t)%Z -> ScrollInfo.top (getScrollInfo e2) = of_Z t)
  /\ ((t < pad)%Z -> ScrollInfo.top (getScrollInfo e2) = of_Z pad).
Proof.
  intros e e2 Hh Ht Hpad _ _ _.
  destruct (down_then_up_top p) as (Hleft & Htop).
  fold e e2 in Hleft, Htop.
  split; [exact Hleft|].
  rewrite Htop. unfold clampedScrollTop. rewrite Ht, Hpad, Hh, lt_of_Z.
  replace (one > zero) with true by reflexivity. rewrite andb_true_r.
  change one with (of_Z 1). change minus_one with (of_Z (-1)).
  split; intros Hc.
  - replace (t <? pad)%Z with false by (symmetry; apply Z.ltb_ge; exact Hc).
    rewrite !mul_of_Z, !add_of_Z. f_equal. lia.
  - replace (t <? pad)%Z with true by (symmetry; apply Z.ltb_lt; exact Hc).
    rewrite !mul_of_Z, !add_of_Z. f_equal. lia.
Qed.

(** On such an editor, with whole pixel metrics: one line up and then one
    line down ends at the original scroll position provided the position
    reached in between is not above the top padding; otherwise the second
    step starts from the padding offset and ends one line below it. *)
Theorem scroll_up_then_down (p : Page E) (t h pad : Z) :
  let e := editor p in
  let e2 := editor (exec (execute [VIEW_SCROLL_LINE_UP; VIEW_SCROLL_LINE_DOWN]) p) in
  getTextHeight e = of_Z h ->
  ScrollInfo.top (getScrollInfo e) = of_Z t ->
  lineSpaceOffsetTop e = of_Z pad ->
  small h -> small t -> small pad ->
  ScrollInfo.left (getScrollInfo e2) = ScrollInfo.left (getScrollInfo e)
  /\ ((pad <= t - h)%Z -> ScrollInfo.top (getScrollInfo e2) = of_Z t)
  /\ ((t - h < pad)%Z -> ScrollInfo.top (getScrollInfo e2) = of_Z (pad + h)).
Proof.
  intros e e2 Hh Ht Hpad _ _ _.
  destruct (up_then_down_top p) as (Hleft & Htop).
  fold e e2 in Hleft, Htop. cbv zeta in Htop.
  split; [exact Hleft|].
  rewrite Htop, Ht, Hpad, Hh.
  change one with (of_Z 1). change minus_one with (of_Z (-1)).
  rewrite !mul_of_Z, !add_of_Z, lt_of_Z.
  split; intros Hc.
  - replace (t + h * -1 <? pad)%Z with false by (symmetry; apply Z.ltb_ge; lia).
    rewrite add_of_Z. f_equal. lia.
  - replace (t + h * -1 <? pad)%Z with true by (symmetry; apply Z.ltb_lt; lia).
    rewrite add_of_Z. f_equal. lia.
Qed.

End ThereAndBack.

(** The recording editor scrolls where it is told. *)
Lemma Mock_laws (baseFs baseLh : string) : @ScrollLaws _ (Mock.host baseFs baseLh).
Proof. constructor; reflexivity. Qed.

(** From scroll top 60 with lines of 10: down and up ends at 60 again; from
    the very top of a document with a padding of 4, it ends at 4. *)
Lemma scroll_down_then_up_witness :
  ScrollInfo.top
    (Mock.scrollInfo
       (editor (exec (@execute _ Examples.base
                        [VIEW_SCROLL_LINE_DOWN; VIEW_SCROLL_LINE_UP])
                  Examples.cursorAbove)))
  = of_Z 60
  /\ ScrollInfo.top
       (Mock.scrollInfo
          (editor (exec (@execute _ Examples.base
                           [VIEW_SCROLL_LINE_DOWN; VIEW_SCROLL_LINE_UP])
                     Examples.aboveContent)))
     = of_Z 4.
Proof.
  assert (Hs : forall z : Z, (Z.abs z <= 100)%Z -> small z)
    by (intros z Hz; unfold small; simpl; lia).
  pose proof (@scroll_down_then_up _ Examples.base (Mock_laws "13px" "15px")
                Examples.cursorAbove 60 10 0 eq_refl eq_refl eq_refl) as H1.
  pose proof (@scroll_down_then_up _ Examples.base (Mock_laws "13px" "15px")
                Examples.aboveContent 0 10 4 eq_refl eq_refl eq_refl) as H2.
  cbv zeta in H1, H2.
  destruct H1 as (_ & H1 & _); try (apply Hs; simpl; lia).
  destruct H2 as (_ & _ & H2); try (apply Hs; simpl; lia).
  split; [apply H1; lia|apply H2; lia].
Defined.

(** From scroll top 60: up and down ends at 60 again.  From scroll top 10
    above a padding of 4, one line of 10 up reaches 0, and down again ends
    at 14. *)
Lemma scroll_up_then_down_witness :
  ScrollInfo.top
    (Mock.scrollInfo
       (editor (exec (@execute _ Examples.base
                        [VIEW_SCROLL_LINE_UP; VIEW_SCROLL_LINE_DOWN])
                  Examples.cursorAbove)))
  = of_Z 60
  /\ ScrollInfo.top
       (Mock.scrollInfo
          (editor (exec (@execute _ Examples.base
                           [VIEW_SCROLL_LINE_UP; VIEW_SCROLL_LINE_DOWN])
                     (mkPage [] (Mock.editorAt 10 0 100 10 0 false 4 [])))))
     = of_Z (4 + 10).
Proof.
  assert (Hs : forall z : Z, (Z.abs z <= 100)%Z -> small z)
    by (intros z Hz; unfold small; simpl; lia).
  pose proof (@scroll_up_then_down _ Examples.base (Mock_laws "13px" "15px")
                Examples.cursorAbove 60 10 0 eq_refl eq_refl eq_refl) as H1.
  pose proof (@scroll_up_then_down _ Examples.base (Mock_laws "13px" "15px")
                (mkPage [] (Mock.editorAt 10 0 100 10 0 false 4 []))
                10 10 4 eq_refl eq_refl eq_refl) as H2.
  cbv zeta in H1, H2.
  destruct H1 as (_ & H1 & _); try (apply Hs; simpl; lia).
  destruct H2 as (_ & _ & H2); try (apply Hs; simpl; lia).
  split; [apply H1; lia|apply H2; lia].
Defined.

(* ================================================================= *)
(** ** What the commands leave alone *)

Section Frame.

Context {E : Type} `{Host E}.

Local Open Scope list_scope.

Import HeadFacts.

Lemma otherElements_remove (h : list Element.t) :
  otherElements (remove_by_id DYNAMIC_FONT_STYLE_ID h) = otherElements h.
Proof.
  induction h as [|el h IH]; simpl; [reflexivity|].
  destruct (Element.id el =? DYNAMIC_FONT_STYLE_ID) eqn:Ei; simpl.
  - reflexivity.
  - rewrite Ei. simpl. rewrite IH. reflexivity.
Qed.

Lemma otherElements_append (h : list Element.t) (el : Element.t) :
  Element.id el = DYNAMIC_FONT_STYLE_ID ->
  otherElements (h ++ [el]) = otherElements h.
Proof.
  intros Hid. unfold otherElements. rewrite filter_app. simpl.
  rewrite Hid, String.eqb_refl. simpl. apply app_nil_r.
Qed.

(** Whatever the commands and whatever the page, the elements of the
    document head other than the dynamic font rule are never removed,
    duplicated or reordered. *)
Theorem other_elements_untouched (cs : list Command) (p : Page E) :
  otherElements (head (exec (execute cs) p)) = otherElements (head p).
Proof.
  revert p. induction cs as [|c cs IH]; intros p; [reflexivity|].
  rewrite exec_execute_cons, IH.
  destruct (registered_head c p) as [Hh|[Hh|(el & Hid & Hh)]]; rewrite Hh.
  - reflexivity.
  - apply otherElements_remove.
  - rewrite otherElements_append by exact Hid. apply otherElements_remove.
Qed.

(** The commands that are bound to keys directly only scroll: no sequence
    of them changes the document head, so the computed font size and line
    height stay what they were. *)
Theorem key_bound_commands_keep_style (cs : list Command) (p : Page E) :
  Forall (fun c => In c keyBound) cs ->
  head (exec (execute cs) p) = head p
  /\ forall prop : string, css (head (exec (execute cs) p)) prop = css (head p) prop.
Proof.
  intros Hcs.
  assert (Hh : head (exec (execute cs) p) = head p).
  { revert p. induction Hcs as [|c cs Hc Hcs IH]; intros p; [reflexivity|].
    rewrite exec_execute_cons, IH.
    destruct Hc as [Hc|[Hc|[]]]; subst c; apply scrollLine_head. }
  split; [exact Hh|]. intros prop. rewrite Hh. reflexivity.
Qed.

Lemma registered_remove (c : Command) (p : Page E) :
  (count_id DYNAMIC_FONT_STYLE_ID (head p) <= 1)%nat ->
  remove_by_id DYNAMIC_FONT_STYLE_ID (head (exec (registered c) p))
  = remove_by_id DYNAMIC_FONT_STYLE_ID (head p).
Proof.
  intros Hc.
  assert (H0 : count_id DYNAMIC_FONT_STYLE_ID
                 (remove_by_id DYNAMIC_FONT_STYLE_ID (head p)) = 0%nat)
    by (apply count_after_remove, Hc).
  destruct (registered_head c p) as [Hh|[Hh|(el & Hid & Hh)]]; rewrite Hh.
  - reflexivity.
  - apply remove_by_id_absent, H0.
  - apply remove_by_id_last; assumption.
Qed.

(** Restoring undoes every adjustment as far as the style rules go: from a
    head with at most one dynamic rule, restoring after any sequence of
    commands leaves the same head as restoring at once. *)
Theorem restore_forgets_adjustments (cs : list Command) (p : Page E) :
  (count_id DYNAMIC_FONT_STYLE_ID (head p) <= 1)%nat ->
  head (exec (execute (cs ++ [VIEW_RESTORE_FONT_SIZE])) p)
  = head (exec _handleRestoreFontSize p).
Proof.
  intros Hc. rewrite exec_execute_app, exec_execute_cons.
  change (head (exec (registered VIEW_RESTORE_FONT_SIZE) (exec (execute cs) p)))
    with (remove_by_id DYNAMIC_FONT_STYLE_ID (head (exec (execute cs) p))).
  change (head (exec _handleRestoreFontSize p))
    with (remove_by_id DYNAMIC_FONT_STYLE_ID (head p)).
  revert p Hc. induction cs as [|c cs IH]; intros p Hc; [reflexivity|].
  rewrite exec_execute_cons, IH by (apply registered_singleton, Hc).
  apply registered_remove, Hc.
Qed.

End Frame.

(** Growing, scrolling and shrinking on a head that holds a foreign element
    on either side of a dynamic rule: the two foreign elements remain, in
    their order. *)
Lemma key_bound_commands_keep_style_witness :
  head (exec (@execute _ Examples.base
                [VIEW_SCROLL_LINE_DOWN; VIEW_SCROLL_LINE_DOWN; VIEW_SCROLL_LINE_UP])
          MoreExamples.crowded)
  = head MoreExamples.crowded.
Proof.
  apply (@key_bound_commands_keep_style _ Examples.base
           [VIEW_SCROLL_LINE_DOWN; VIEW_SCROLL_LINE_DOWN; VIEW_SCROLL_LINE_UP]
           MoreExamples.crowded).
  repeat constructor; simpl; tauto.
Defined.

Lemma restore_forgets_adjustments_witness :
  head (exec (@execute _ Examples.base
                ([VIEW_INCREASE_FONT_SIZE; VIEW_DECREASE_FONT_SIZE;
                  VIEW_INCREASE_FONT_SIZE] ++ [VIEW_RESTORE_FONT_SIZE]))
          MoreExamples.crowded)
  = [MoreExamples.foreign "first"; MoreExamples.foreign "second"].
Proof.
  etransitivity.
  - apply (@restore_forgets_adjustments _ Examples.base
             [VIEW_INCREASE_FONT_SIZE; VIEW_DECREASE_FONT_SIZE;
              VIEW_INCREASE_FONT_SIZE] MoreExamples.crowded).
    simpl. apply le_n.
  - reflexivity.
Defined.

(* ================================================================= *)
(** ** What the validation of the styles guarantees *)

Section Validation.

Local Open Scope string_scope.

Lemma length_append (a b : string) :
  String.length (a ++ b) = (String.length a + String.length b)%nat.
Proof. induction a as [|c a IH]; simpl; [reflexivity|]. rewrite IH. reflexivity. Qed.

Lemma substring_prefix (a b : string) :
  String.substring 0 (String.length a) (a ++ b) = a.
Proof.
  induction a as [|c a IH]; simpl.
  - destruct b; reflexivity.
  - rewrite IH. reflexivity.
Qed.

Lemma substring_suffix (a b : string) :
  String.substring (String.length a) (String.length b) (a ++ b) = b.
Proof.
  induction a as [|c a IH]; simpl; [|exact IH].
  induction b as [|c b IHb]; simpl; [reflexivity|].
  rewrite IHb. reflexivity.
Qed.

(** The two slices of [_adjustFontSize] on a value with a two-character
    unit. *)
Lemma slices_of_append (body units : string) :
  String.length units = 2%nat ->
  unitsOf (body ++ units) = units
  /\ substring 0 (String.length (body ++ units) - 2) (body ++ units) = body.
Proof.
  intros Hu. unfold unitsOf, substring. rewrite length_append, Hu.
  replace (String.length body + 2 - 2)%nat with (String.length body) by lia.
  replace (String.length body + 2 - String.length body)%nat with 2%nat by lia.
  rewrite Nat.sub_0_r. rewrite <- Hu at 1.
  split; [apply substring_suffix|apply substring_prefix].
Qed.

Lemma validFont_split (s : string) :
  validFont s = true ->
  exists body units,
    s = body ++ units /\ body <> EmptyString /\ digitsOrDots body = true
    /\ (units = "px" \/ units = "em").
Proof.
  induction s as [|c s IH]; simpl; [discriminate|].
  intros Hv. apply andb_true_iff in Hv. destruct Hv as [Hc Hv].
  apply orb_true_iff in Hv. destruct Hv as [Hv|Hv].
  - exists (String c EmptyString), s. simpl. unfold digitOrDot. rewrite Hc.
    repeat split; [discriminate|].
    apply orb_true_iff in Hv.
    destruct Hv as [Hv|Hv]; apply String.eqb_eq in Hv; auto.
  - destruct (IH Hv) as (body & units & Hs & _ & Hd & Hu).
    exists (String c body), units. simpl. unfold digitOrDot. rewrite Hc, Hd, Hs.
    repeat split; [discriminate|exact Hu].
Qed.

Lemma validFont_join (body units : string) :
  body <> EmptyString -> digitsOrDots body = true ->
  units = "px" \/ units = "em" ->
  validFont (body ++ units) = true.
Proof.
  intros Hne Hd Hu. induction body as [|c body IH]; [congruence|].
  simpl in *. apply andb_true_iff in Hd. destruct Hd as [Hc Hd].
  unfold digitOrDot in Hc. rewrite Hc. simpl.
  destruct body as [|c' body].
  - simpl. destruct Hu as [Hu|Hu]; subst units; reflexivity.
  - rewrite IH; [apply orb_true_r|discriminate|exact Hd].
Qed.

(** The validation accepts exactly the values made of a non-empty run of
    digits and dots followed by [px] or [em], and on an accepted value the
    two slices that follow it are that run and that unit: no sign, blank,
    exponent or other unit reaches [parseFloat]. *)
Theorem validFont_slices (s : string) :
  (validFont s = true ->
   s = substring 0 (String.length s - 2) s ++ unitsOf s
   /\ substring 0 (String.length s - 2) s <> EmptyString
   /\ digitsOrDots (substring 0 (String.length s - 2) s) = true
   /\ (unitsOf s = "px" \/ unitsOf s = "em"))
  /\ (forall body units : string,
        body <> EmptyString -> digitsOrDots body = true ->
        units = "px" \/ units = "em" ->
        validFont (body ++ units) = true).
Proof.
  split; [|apply validFont_join].
  intros Hv. destruct (validFont_split s Hv) as (body & units & Hs & Hne & Hd & Hu).
  assert (Hl : String.length units = 2%nat)
    by (destruct Hu; subst units; reflexivity).
  destruct (@slices_of_append body units Hl) as (Hunits & Hbody).
  rewrite Hs, Hunits, Hbody. auto.
Qed.

End Validation.

Lemma validFont_slices_witness :
  "13.5px" = (substring 0 (String.length "13.5px" - 2) "13.5px" ++ unitsOf "13.5px")%string
  /\ unitsOf "13.5px" = "px"
  /\ validFont ("0.9" ++ "em") = true.
Proof.
  destruct (validFont_slices "13.5px") as (Hfwd & _).
  destruct (validFont_slices "0.9em") as (_ & Hbwd).
  destruct (Hfwd eq_refl) as (Hs & _ & _ & _).
  split; [exact Hs|].
  split; [reflexivity|].
  apply Hbwd; [discriminate|reflexivity|right; reflexivity].
Defined.

(* ================================================================= *)
(** ** The number read from a validated style *)

Section ParsedNumber.

Local Open Scope string_scope.

(** Reading digits only adds to the count and keeps the value from going
    negative. *)
Lemma read_digits_count (s : string) (acc : Z) (n : nat) :
  (n <= snd (fst (read_digits s acc n)))%nat.
Proof.
  revert acc n. induction s as [|c s IH]; intros acc n; simpl; [auto|].
  destruct (is_digit c); simpl; [|auto].
  specialize (IH (acc * 10 + digit_val c)%Z (S n)). lia.
Qed.

Lemma read_digits_grows (s : string) (acc : Z) (n : nat) :
  (0 <= acc)%Z ->
  (0 <= fst (fst (read_digits s acc n)))%Z
  /\ (n <= snd (fst (read_digits s acc n)))%nat.
Proof.
  intros Hacc. split; [|apply read_digits_count].
  revert acc n Hacc. induction s as [|c s IH]; intros acc n Hacc; simpl; [auto|].
  destruct (is_digit c); simpl; [|auto].
  assert (Hd : (0 <= digit_val c)%Z) by (unfold digit_val; lia).
  apply IH. lia.
Qed.

Lemma read_digits_none (s : string) (acc : Z) (n : nat) :
  digitAt 0 s = false -> read_digits s acc n = (acc, n, s).
Proof.
  destruct s as [|c s]; [reflexivity|].
  unfold digitAt. simpl. intros Hc. rewrite Hc. reflexivity.
Qed.

Lemma read_digits_some (s : string) (acc : Z) (n : nat) :
  digitAt 0 s = true -> (S n <= snd (fst (read_digits s acc n)))%nat.
Proof.
  destruct s as [|c s]; [discriminate|].
  unfold digitAt. simpl. intros Hc. rewrite Hc.
  apply read_digits_count.
Qed.

(** A decimal fraction with a numerator that is not negative. *)
Lemma fraction_nonneg (ip fp : Z) (d : positive) :
  (0 <= ip)%Z -> (0 <= fp)%Z -> (0 <= Qred (inject_Z ip + (fp # d)))%Q.
Proof.
  intros Hi Hf. rewrite Qred_correct.
  assert (0 <= inject_Z ip)%Q by (unfold Qle; simpl; lia).
  assert (0 <= fp # d)%Q by (unfold Qle; simpl; lia).
  lra.
Qed.

(** [parseFloat] on a string that starts with digits and dots. *)
Lemma parseFloat_cases (s : string) :
  (digitAt 0 s = true ->
   exists q : Q, parseFloat s = Fin q /\ (0 <= q)%Q)
  /\ (digitAt 0 s = false -> String.get 0 s = Some "."%char -> digitAt 1 s = true ->
      exists q : Q, parseFloat s = Fin q /\ (0 <= q)%Q)
  /\ (digitAt 0 s = false -> digitAt 1 s = false -> parseFloat s = NaN).
Proof.
  unfold parseFloat. repeat split.
  - intros H0.
    pose proof (read_digits_some s 0 0 H0) as Hn.
    pose proof (@read_digits_grows s 0 0 (Z.le_refl 0)) as (Hv & _).
    destruct (read_digits s 0 0) as [[ip ni] rest]. simpl in Hn, Hv.
    destruct rest as [|c rest'].
    + destruct ni as [|ni]; [lia|].
      eexists. split; [reflexivity|]. apply fraction_nonneg; lia.
    + destruct (is_dot c).
      * pose proof (@read_digits_grows rest' 0 0 (Z.le_refl 0)) as (Hf & _).
        destruct (read_digits rest' 0 0) as [[f k] r]. simpl in Hf.
        destruct ni as [|ni]; [lia|].
        eexists. split; [reflexivity|]. apply fraction_nonneg; lia.
      * destruct ni as [|ni]; [lia|].
        eexists. split; [reflexivity|]. apply fraction_nonneg; lia.
  - intros H0 Hdot H1. rewrite (read_digits_none s 0 0 H0).
    destruct s as [|c s]; [discriminate|]. simpl in Hdot.
    injection Hdot as Hc. subst c.
    assert (H1' : digitAt 0 s = true) by exact H1.
    pose proof (read_digits_some s 0 0 H1') as Hn.
    pose proof (@read_digits_grows s 0 0 (Z.le_refl 0)) as (Hf & _).
    cbv beta iota zeta. change (is_dot "."%char) with true. cbv beta iota.
    destruct (read_digits s 0 0) as [[f k] r]. simpl in Hn, Hf.
    destruct k as [|k]; [lia|].
    eexists. split; [reflexivity|]. apply fraction_nonneg; lia.
  - intros H0 H1. rewrite (read_digits_none s 0 0 H0).
    destruct s as [|c s]; [reflexivity|].
    assert (H1' : digitAt 0 s = false) by exact H1.
    destruct (is_dot c); [|reflexivity].
    rewrite (read_digits_none s 0 0 H1'). reflexivity.
Qed.

Lemma digitAt_append0 (body units : string) :
  body <> EmptyString -> digitAt 0 (body ++ units) = digitAt 0 body.
Proof. destruct body; [congruence|reflexivity]. Qed.

Lemma digitAt_append1 (body units : string) :
  body <> EmptyString -> units = "px" \/ units = "em" ->
  digitAt 1 (body ++ units) = digitAt 1 body.
Proof.
  intros Hne Hu. destruct body as [|c body]; [congruence|].
  destruct body as [|c' body]; [|reflexivity].
  destruct Hu; subst units; reflexivity.
Qed.

(** The number part of a validated style never parses to a negative
    number, but it may fail to parse: it is [NaN] exactly when neither the
    first nor the second character of the value is a digit (a dot that no
    digit follows). *)
Theorem valueOf_validated (s : string) :
  validFont s = true ->
  (valueOf s = NaN <-> digitAt 0 s = false /\ digitAt 1 s = false)
  /\ js_lt (valueOf s) zero = false
  /\ valueOf s <> NInf.
Proof.
  intros Hv.
  destruct (validFont_split s Hv) as (body & units & Hs & Hne & Hd & Hu).
  assert (Hl : String.length units = 2%nat)
    by (destruct Hu; subst units; reflexivity).
  destruct (@slices_of_append body units Hl) as (_ & Hbody).
  unfold valueOf. rewrite Hs, Hbody.
  rewrite digitAt_append0, digitAt_append1 by assumption.
  destruct (parseFloat_cases body) as (Hdigit & Hdot & Hnan).
  assert (Hfirst : digitAt 0 body = false -> String.get 0 body = Some "."%char).
  { destruct body as [|c body]; [congruence|].
    unfold digitAt. simpl. intros Hc. simpl in Hd.
    unfold digitOrDot in Hd. rewrite Hc in Hd. simpl in Hd.
    apply andb_true_iff in Hd. destruct Hd as [Hd _].
    unfold is_dot in Hd. apply Ascii.eqb_eq in Hd. subst c. reflexivity. }
  assert (Hneg : forall q : Q, (0 <= q)%Q -> js_lt (Fin q) zero = false).
  { intros q Hq. destruct (js_lt (Fin q) zero) eqn:Hlt; [|reflexivity].
    apply JSFacts.lt_Fin in Hlt. change (inject_Z 0) with 0%Q in Hlt. lra. }
  destruct (digitAt 0 body) eqn:E0.
  - destruct (Hdigit eq_refl) as (q & Hq & Hpos). rewrite Hq. split.
    + split; [discriminate|intros [Hf _]; discriminate].
    + split; [apply Hneg, Hpos|discriminate].
  - destruct (digitAt 1 body) eqn:E1.
    + destruct (Hdot eq_refl (Hfirst eq_refl) eq_refl) as (q & Hq & Hpos).
      rewrite Hq. split.
      * split; [discriminate|intros [_ Hf]; discriminate].
      * split; [apply Hneg, Hpos|discriminate].
    + rewrite (Hnan eq_refl eq_refl).
      split; [tauto|split; [reflexivity|discriminate]].
Qed.

End ParsedNumber.

Lemma valueOf_validated_witness :
  (valueOf "..px" = NaN <-> digitAt 0 "..px" = false /\ digitAt 1 "..px" = false)
  /\ js_lt (valueOf ".5em") zero = false.
Proof.
  destruct (@valueOf_validated "..px" eq_refl) as (Hnan & _).
  destruct (@valueOf_validated ".5em" eq_refl) as (_ & Hfin & _).
  split; [exact Hnan|exact Hfin].
Defined.

(* ================================================================= *)
(** ** What the minimum-size guard does not catch *)

Section Unguarded.

Context {E : Type} `{Host E}.

Local Open Scope js_scope.
Local Open Scope list_scope.

Import JSFacts.

Lemma tooSmall_NaN (direction : num) (units : string) :
  tooSmall direction units NaN = false.
Proof.
  unfold tooSmall. replace (NaN <= one) with false by reflexivity.
  replace (NaN <= tenth) with false by reflexivity.
  rewrite !andb_false_r. reflexivity.
Qed.

(** A validated font size whose number does not parse is not stopped by the
    guard: in either direction the handler installs a rule whose font size
    is [NaN] followed by the unit. *)
Theorem unparsed_size_installed (direction : num) (p : Page E) :
  stylesValid (head p) = true ->
  valueOf (css (head p) "font-size") = NaN ->
  head (exec (_adjustFontSize direction) p)
  = remove_by_id DYNAMIC_FONT_STYLE_ID (head p)
    ++ [fontStyle ("NaN" ++ unitsOf (css (head p) "font-size"))%string
          (toString (newLineHeight (head p) direction)
             ++ unitsOf (css (head p) "line-height"))%string].
Proof.
  intros Hv Hnan.
  assert (Hnew : newFontSize (head p) direction = NaN)
    by (unfold newFontSize; rewrite Hnan; reflexivity).
  unfold exec. rewrite adjustFontSize_run.
  - cbn [snd head]. unfold newRule. rewrite Hnew. reflexivity.
  - exact Hv.
  - rewrite Hnew. apply tooSmall_NaN.
Qed.

(** The guard looks at the font size only.  Shrinking a pixel font size
    above 2 lowers a pixel line height by one whatever it was, also to zero
    or below. *)
Theorem line_height_unguarded (p : Page E) (f l : Q) :
  fontSizePx (head p) f -> (2 < f)%Q ->
  unitsOf (css (head p) "line-height") = "px" ->
  valueOf (css (head p) "line-height") = Fin l ->
  head (exec _handleDecreaseFontSize p)
  = remove_by_id DYNAMIC_FONT_STYLE_ID (head p)
    ++ [fontStyle (toString (Fin (f - 1)) ++ "px")%string
          (toString (Fin (l - 1)) ++ "px")%string].
Proof.
  intros Hpx Hf Hlu Hlv.
  destruct (newFontSize_px minus_one (step := -1) Hpx eq_refl) as (r & Hr & Hrv).
  destruct Hpx as (Hvalid & Hu & Hval).
  unfold _handleDecreaseFontSize, exec. rewrite adjustFontSize_run.
  - cbn [snd head]. unfold newRule, newLineHeight.
    rewrite Hr, Hu, Hlu, Hlv.
    replace (Fin l + stepOf "px" minus_one) with (Fin (Qred (l + -1)))
      by reflexivity.
    rewrite (@toString_Fin_eq r (f - 1)) by (rewrite Hrv; ring).
    rewrite (@toString_Fin_eq (Qred (l + -1)) (l - 1))
      by (rewrite Qred_correct; ring).
    reflexivity.
  - exact Hvalid.
  - rewrite Hu, Hr, tooSmall_down. apply negb_false_iff, sizeAllowed_px. lra.
Qed.

End Unguarded.

(** A font size of two dots: growing installs [NaNpx]. *)
Lemma unparsed_size_installed_witness :
  head (exec (@_adjustFontSize _ MoreExamples.dots one) Examples.scrolled)
  = [fontStyle "NaNpx" "16px"].
Proof.
  etransitivity.
  - apply (@unparsed_size_installed _ MoreExamples.dots one Examples.scrolled);
      reflexivity.
  - reflexivity.
Defined.

(** 13 pixel text on one-pixel lines: shrinking installs a line height of
    zero. *)
Lemma line_height_unguarded_witness :
  head (exec (@_handleDecreaseFontSize _ MoreExamples.thinLines) Examples.scrolled)
  = [fontStyle "12px" "0px"].
Proof.
  etransitivity.
  - apply (@line_height_unguarded _ MoreExamples.thinLines Examples.scrolled 13 1);
      [repeat split|reflexivity|reflexivity|reflexivity].
  - reflexivity.
Defined.

(* ================================================================= *)
(** ** Concrete runs of the widget loop *)

(** Two widgets of heights 30 and 20 on the editor scrolled to 60 with a
    viewport of 100: the first lowers the scroll top to 30, the second the
    viewport height to 80, and the range is the one of 30 and 80. *)
Lemma widget_loop_in_sync_witness :
  Vars.linesInView
    (eval (forEach (getInlineWidgets (Host := Examples.base)
                      (editor MoreExamples.twoWidgets))
             (@widgetCallback _ Examples.base (of_Z 10))
             (@initialVars _ Examples.base (editor MoreExamples.twoWidgets) one))
       MoreExamples.twoWidgets)
  = eval (@_getLinesInView _ Examples.base (of_Z 30) (of_Z 80))
      MoreExamples.twoWidgets.
Proof.
  etransitivity.
  - apply (@widget_loop_in_sync _ Examples.base
             (getInlineWidgets (Host := Examples.base)
                (editor MoreExamples.twoWidgets))
             (@initialVars _ Examples.base (editor MoreExamples.twoWidgets) one)
             MoreExamples.twoWidgets).
    reflexivity.
  - reflexivity.
Defined.

Lemma widgets_counted_once_witness :
  exists t h : Z,
    Vars.scrollTop
      (eval (forEach (getInlineWidgets (Host := Examples.base)
                        (editor MoreExamples.twoWidgets))
               (@widgetCallback _ Examples.base (of_Z 10))
               (@initialVars _ Examples.base (editor MoreExamples.twoWidgets) one))
         MoreExamples.twoWidgets) = of_Z t
    /\ Vars.editorHeight
         (eval (forEach (getInlineWidgets (Host := Examples.base)
                           (editor MoreExamples.twoWidgets))
                  (@widgetCallback _ Examples.base (of_Z 10))
                  (@initialVars _ Examples.base (editor MoreExamples.twoWidgets) one))
            MoreExamples.twoWidgets) = of_Z h
    /\ (t <= 60)%Z /\ (h <= 100)%Z
    /\ ((60 - t) + (100 - h) <= sumZ [30; 20])%Z.
Proof.
  apply (@widgets_counted_once _ Examples.base
           (getInlineWidgets (Host := Examples.base)
              (editor MoreExamples.twoWidgets))
           [30; 20]%Z
           (@initialVars _ Examples.base (editor MoreExamples.twoWidgets) one)
           MoreExamples.twoWidgets 60 100).
  - reflexivity.
  - reflexivity.
  - repeat constructor; discriminate.
  - unfold small. simpl. lia.
  - unfold small. simpl. lia.
  - unfold small. simpl. lia.
Defined.

(** The cursor on line 9 with the lines 5 to 14 visible: scrolling down
    only scrolls. *)
Lemma scrollLine_cursor_untouched_witness :
  exec (@_scrollLine _ Examples.base one) MoreExamples.cursorInside
  = mkPage [] (Mock.scrollTo zero (of_Z 70) (editor MoreExamples.cursorInside)).
Proof.
  etransitivity.
  - apply (@scrollLine_cursor_untouched _ Examples.base one
             MoreExamples.cursorInside).
    left. split; reflexivity.
  - reflexivity.
Defined.

(* ================================================================= *)
(** ** The threshold of the guard, and a text height that is no number *)

Section Thresholds.

Context {E : Type} `{Host E}.

Local Open Scope js_scope.
Local Open Scope list_scope.

Import JSFacts.

(** In terms of the current size the guard reads, on a page whose computed
    font size and computed line height both match the pattern: a pixel font
    size of at most 2 cannot be shrunk, the call leaves the page as it is; a
    larger one is shrunk by one pixel. *)
Theorem decrease_threshold (p : Page E) (f : Q) :
  validFont (css (head p) "font-size") = true ->
  validFont (css (head p) "line-height") = true ->
  unitsOf (css (head p) "font-size") = "px" ->
  (valueOf (css (head p) "font-size") === Fin f) = true ->
  ((f <= 2)%Q -> _handleDecreaseFontSize p = (tt, p))
  /\ ((2 < f)%Q -> (f <= inject_Z (2 ^ 24))%Q ->
      overridePx (head (exec _handleDecreaseFontSize p)) (f - 1)).
Proof.
  intros Hvf Hvl Hunit Hval.
  assert (Hpx : fontSizePx (head p) f).
  { unfold fontSizePx, stylesValid. rewrite Hvf, Hvl. auto. }
  split.
  - intros Hf.
    destruct (newFontSize_px minus_one (step := -1) Hpx eq_refl) as (r & Hr & Hrv).
    destruct Hpx as (Hvalid & Hu & _).
    apply adjustFontSize_small; [exact Hvalid|].
    rewrite Hu, Hr, tooSmall_down. apply negb_true_iff.
    destruct (sizeAllowed "px" (Fin r)) eqn:Ha; [|reflexivity].
    apply sizeAllowed_px in Ha. lra.
  - intros Hf _.
    apply (overridePx_eq (a := f + -1)); [ring|].
    apply (adjustFontSize_px p minus_one (step := -1) Hpx); [reflexivity|].
    rewrite tooSmall_down. apply negb_false_iff, sizeAllowed_px. lra.
Qed.

Lemma widgetAdjust_NaN (L Ht : num) (v : Vars.t) :
  Vars.linesInView v = LinesInView.make NaN NaN -> widgetAdjust NaN L Ht v = v.
Proof.
  intros Hv. unfold widgetAdjust. rewrite Hv. cbn [LinesInView.first LinesInView.last].
  replace (L < NaN) with false by (destruct L; reflexivity).
  replace (L + Ht / NaN < NaN)
    with false by (destruct (L + Ht / NaN); reflexivity).
  reflexivity.
Qed.

Lemma afterWidgets_NaN (e : E) (ws : list InlineWidget.t) (v : Vars.t) :
  getTextHeight e = NaN ->
  Vars.linesInView v = LinesInView.make NaN NaN -> afterWidgets e ws v = v.
Proof.
  intros Hth Hv. induction ws as [|w ws IH]; [reflexivity|].
  assert (Hstep : widgetAdjust (getTextHeight e) (_getInlineWidgetLineNumber e w)
                    (InlineWidget.height w) v = v)
    by (rewrite Hth; apply widgetAdjust_NaN, Hv).
  simpl. rewrite Hstep. exact IH.
Qed.

Lemma computeVisibleLines_NaN (s v : num) :
  computeVisibleLines NaN s v = LinesInView.make NaN NaN.
Proof.
  unfold computeVisibleLines.
  replace (s / NaN) with NaN by (destruct s; reflexivity).
  replace ((s + v) / NaN) with NaN by (destruct (s + v); reflexivity).
  reflexivity.
Qed.

(** Nothing guards the text height.  If the editor reports one that is not
    a number, no widget changes the range, the cursor is left alone whatever
    the selection and the direction, and the editor is asked to scroll to a
    vertical offset that is not a number either. *)
Theorem scrollLine_without_text_height (direction : num) (p : Page E) :
  getTextHeight (editor p) = NaN ->
  exec (_scrollLine direction) p
  = mkPage (head p)
      (setScrollPos (ScrollInfo.left (getScrollInfo (editor p))) NaN (editor p)).
Proof.
  intros Hth. unfold exec. rewrite scrollLine_run. cbn [snd]. f_equal.
  unfold scrollStep. rewrite Hth.
  replace (clampedScrollTop (editor p) direction + NaN * direction)
    with NaN by (destruct (clampedScrollTop (editor p) direction); reflexivity).
  f_equal.
  assert (Hr : visibleRange (editor p) direction = LinesInView.make NaN NaN).
  { unfold visibleRange. rewrite afterWidgets_NaN; [| exact Hth |];
      unfold initialVars; rewrite Hth; cbn [Vars.linesInView];
      apply computeVisibleLines_NaN. }
  unfold cursorStep. rewrite Hr. cbn [LinesInView.first LinesInView.last].
  destruct (hasSelection (editor p)); [reflexivity|]. cbn [negb].
  set (line := Pos.line (getCursorPos (editor p))).
  replace (line < NaN) with false by (destruct line; reflexivity).
  replace (line > NaN) with false by (destruct line; reflexivity).
  replace (line === NaN) with false by (destruct line; reflexivity).
  rewrite !andb_false_r. reflexivity.
Qed.

End Thresholds.

(** At exactly 2 pixels shrinking is refused; at 13 pixels it installs 12. *)
Lemma decrease_threshold_witness :
  @_handleDecreaseFontSize _ Examples.twoPixels Examples.scrolled
  = (tt, Examples.scrolled)
  /\ @overridePx (head (exec (@_handleDecreaseFontSize _ Examples.base)
                          Examples.scrolled)) (13 - 1).
Proof.
  destruct (@decrease_threshold _ Examples.twoPixels Examples.scrolled 2
              eq_refl eq_refl eq_refl eq_refl)
    as (Hstop & _).
  destruct (@decrease_threshold _ Examples.base Examples.scrolled 13
              eq_refl eq_refl eq_refl eq_refl)
    as (_ & Hgo).
  split; [apply Hstop; discriminate|apply Hgo; [reflexivity|discriminate]].
Defined.

(** An editor without a text height: the cursor on line 4 stays, the scroll
    request carries [NaN]. *)
Lemma scrollLine_without_text_height_witness :
  Mock.calls
    (editor (exec (@_scrollLine _ Examples.base one)
               (mkPage []
                  (Mock.make (ScrollInfo.make (of_Z 60) zero (of_Z 100)) NaN
                     (Pos.make (of_Z 4) zero) false zero [] []))))
  = [Mock.SetScrollPos zero NaN].
Proof.
  rewrite (@scrollLine_without_text_height _ Examples.base one
             (mkPage []
                (Mock.make (ScrollInfo.make (of_Z 60) zero (of_Z 100)) NaN
                   (Pos.make (of_Z 4) zero) false zero [] []))).
  - reflexivity.
  - reflexivity.
Defined.
